(** * EvaluatorCallbackHandler: a tracer that runs evaluators over completed runs

    Shallow embedding of [langchain/callbacks/tracers/evaluation.py].

    The handler is stateful Python: it mutates [self.futures], allocates a
    copy of the run it is given, logs, and calls into a client that may
    raise.  The embedding threads an explicit [world] through a small
    state-and-exception monad.  Worker threads and concurrent callers are
    sequentialised: the only suspension point of the handler is the call to
    [concurrent.futures.wait], and what the other threads do while the
    caller is suspended there is given as a schedule of events. *)

From Stdlib Require Import ZArith.
From stdpp Require Import gmap strings list pretty.

Set Warnings "-clear-no-such-hyp".

Open Scope Z_scope.
Open Scope string_scope.
Open Scope list_scope.

(** ** Python exceptions and outcomes *)

Module Py.

(** The part of the built-in exception hierarchy the handler can tell
    apart: [except Exception] catches every class but the three that
    derive from [BaseException] directly (and user classes that do). *)
Inductive exc_class :=
| AttributeError
| KeyError
| ValueError
| RuntimeError
| UserException (name : string)
| SystemExit
| KeyboardInterrupt
| GeneratorExit
| UserBaseException (name : string).

Record exn := Exn { exc_type : exc_class; exc_str : string }.

(** [isinstance(e, Exception)] *)
Definition isinstance_Exception (e : exn) : bool :=
  match exc_type e with
  | SystemExit | KeyboardInterrupt | GeneratorExit | UserBaseException _ => false
  | _ => true
  end.

(** What a call does: it returns, it raises, or it is [Stuck] on a
    reference to an object that was never allocated (no Python program
    reaches that; it keeps the store lookups total). *)
Inductive outcome (A : Type) :=
| Return (a : A)
| Raise (e : exn)
| Stuck.
Arguments Return {A} a.
Arguments Raise {A} e.
Arguments Stuck {A}.

End Py.
Export Py.

(** ** What the file imports and does not define *)

(** [UUID] with its constructor from a string (which raises [ValueError] on
    a malformed one) and its [str]; the attributes of [Run] the handler
    never touches; the state of the remote scoring service. *)
Class Externals := {
  UUID : Type;
  UUID_of_str : string → option UUID;
  str_of_UUID : UUID → string;
  RunRest : Type;
  Sink : Type;
}.

(** ** Data model *)

Abbreviation loc := positive.
Abbreviation Future := positive.

Inductive level := DEBUG | ERROR.

(** A record handled by [logger]; [exc_info] is the exception attached by
    [exc_info=True]. *)
Record LogRecord := {
  levelname : level;
  message : string;
  exc_info : option exn;
}.

(** The tracer installed by [tracing_v2_enabled]. *)
Record tracer := {
  tr_project_name : option string;
  tr_tags : list string;
}.

(** An evaluator object: its identity and [__class__.__name__]. *)
Record RunEvaluator := {
  ev_ident : nat;
  ev_class_name : string;
}.

(** [Future._state]; nothing here cancels, and a worker runs its work item
    in one step, so a future is pending or finished, with
    [Future._exception]. *)
Inductive future_state :=
| PENDING
| FINISHED (exception : option exn).

(** A work item of the executor: [fn] is always [self._evaluate_in_project],
    the arguments are the run and the evaluator. *)
Record Task := {
  arg_run : loc;
  arg_evaluator : RunEvaluator;
  _state : future_state;
}.

Section Model.
Context `{!Externals}.

Record Run := {
  id : UUID;
  outputs : option loc;
  reference_example_id : option UUID;
  rest : RunRest;
}.

(** The object store: [Run] objects, and the dictionaries their [outputs]
    refer to. *)
Record heap := {
  runs : gmap loc Run;
  dicts : gmap loc (gmap string string);
}.

(** [self.client]: an instance of the class of this file, which has no
    method, or of a subclass that defines [evaluate_run].  The method sees
    the installed tracer, and may change the scoring service and the
    objects it is handed. *)
Inductive Client :=
| LangChainPlusClient
| ClientWith
    (evaluate_run :
       option tracer → loc → RunEvaluator → Sink → heap → outcome unit * Sink * heap).

Record EvalCall := {
  call_run : loc;
  call_evaluator : RunEvaluator;
  call_tracer : option tracer;
}.

Record world := {
  futures : gset Future;          (* self.futures *)
  tasks : gmap Future Task;       (* the futures self.executor created *)
  hp : heap;
  tracing : option tracer;        (* the tracing_v2 context variable *)
  records : list LogRecord;       (* handled by logger, oldest first *)
  sink : Sink;
  calls : list EvalCall;          (* calls of client.evaluate_run, oldest first *)
}.

(** The attributes [__init__] sets and nothing rebinds; [self.futures] is
    the field [futures] of the world. *)
Record EvaluatorCallbackHandler := {
  example_id : option UUID;
  client : Client;
  evaluators : list RunEvaluator;
  executor_max_workers : Z;
  skip_unfinished : bool;
  project_name : option string;
}.

Definition set_futures (s : gset Future) (w : world) : world :=
  {| futures := s; tasks := tasks w; hp := hp w; tracing := tracing w;
     records := records w; sink := sink w; calls := calls w |}.

Definition set_tasks (t : gmap Future Task) (w : world) : world :=
  {| futures := futures w; tasks := t; hp := hp w; tracing := tracing w;
     records := records w; sink := sink w; calls := calls w |}.

Definition set_runs (r : gmap loc Run) (w : world) : world :=
  {| futures := futures w; tasks := tasks w;
     hp := {| runs := r; dicts := dicts (hp w) |}; tracing := tracing w;
     records := records w; sink := sink w; calls := calls w |}.

Definition set_tracing (t : option tracer) (w : world) : world :=
  {| futures := futures w; tasks := tasks w; hp := hp w; tracing := t;
     records := records w; sink := sink w; calls := calls w |}.

Definition set_records (l : list LogRecord) (w : world) : world :=
  {| futures := futures w; tasks := tasks w; hp := hp w; tracing := tracing w;
     records := l; sink := sink w; calls := calls w |}.

Definition after_call (c : EvalCall) (s : Sink) (h : heap) (w : world) : world :=
  {| futures := futures w; tasks := tasks w; hp := h; tracing := tracing w;
     records := records w; sink := s; calls := calls w ++ [c] |}.

(** ** The monad *)

Definition M (A : Type) : Type := world → outcome A * world.

Definition ret {A} (a : A) : M A := λ w, (Return a, w).

Definition bind {A B} (m : M A) (k : A → M B) : M B := λ w,
  match m w with
  | (Return a, w') => k a w'
  | (Raise e, w') => (Raise e, w')
  | (Stuck, w') => (Stuck, w')
  end.

Definition raise {A} (e : exn) : M A := λ w, (Raise e, w).

(** [try: body / except Exception as e: handler e] *)
Definition try_except_Exception {A} (body : M A) (handler : exn → M A) : M A := λ w,
  match body w with
  | (Raise e, w') =>
      if isinstance_Exception e then handler e w' else (Raise e, w')
  | r => r
  end.

(** [for x in xs: body x] *)
Fixpoint for_each {A} (xs : list A) (body : A → M unit) : M unit :=
  match xs with
  | [] => ret tt
  | x :: xs' => bind (body x) (λ _, for_each xs' body)
  end.

End Model.

Declare Scope py_scope.
Delimit Scope py_scope with py.
Notation "x <- c ;; k" := (bind c (λ x, k))
  (at level 100, c at next level, right associativity) : py_scope.
Notation "c ;; k" := (bind c (λ _, k))
  (at level 100, right associativity) : py_scope.

(** ** The handler *)

Section Handler.
Context `{!Externals}.
Local Open Scope py_scope.

(** *** Collaborators *)

Definition load_run (l : loc) : M Run := λ w,
  match runs (hp w) !! l with
  | Some r => (Return r, w)
  | None => (Stuck, w)
  end.

(** [not run.outputs]: [None] and the empty dictionary are falsy. *)
Definition not_outputs (r : Run) : M bool := λ w,
  match outputs r with
  | None => (Return true, w)
  | Some d =>
      match dicts (hp w) !! d with
      | Some kv => (Return (bool_decide (kv = ∅)), w)
      | None => (Stuck, w)
      end
  end.

(** Modelled from the spec: [Run.copy] is inherited from the schema's base
    class, outside this file.  "Produces a shallow copy": a new object
    whose attributes hold the same values and references. *)
Definition Run_copy (l : loc) : M loc :=
  r <- load_run l ;;
  λ w, let l' := fresh (dom (runs (hp w))) in
       (Return l', set_runs (<[l' := r]> (runs (hp w))) w).

(** [run_.reference_example_id = v] *)
Definition set_reference_example_id (l : loc) (v : option UUID) : M unit :=
  r <- load_run l ;;
  λ w, (Return tt,
        set_runs (<[l := {| id := id r; outputs := outputs r;
                            reference_example_id := v; rest := rest r |}]>
                    (runs (hp w))) w).

Definition logger_debug (msg : string) : M unit := λ w,
  (Return tt,
   set_records (records w ++ [{| levelname := DEBUG; message := msg; exc_info := None |}]) w).

(** [logger.error(msg, exc_info=True)] inside the handler of [e] *)
Definition logger_error (msg : string) (e : exn) : M unit := λ w,
  (Return tt,
   set_records (records w ++ [{| levelname := ERROR; message := msg; exc_info := Some e |}]) w).

(** Modelled from the spec: [tracing_v2_enabled] is imported from
    [langchain.callbacks.manager].  "Establish a scoped alternate reporting
    destination for the duration of one evaluate call, then restore the
    prior destination on exit, including on exceptional exit." *)
Definition tracing_v2_enabled {A} (project : option string) (tags : list string)
    (body : M A) : M A := λ w,
  let prior := tracing w in
  let '(o, w') :=
    body (set_tracing (Some {| tr_project_name := project; tr_tags := tags |}) w) in
  (o, set_tracing prior w').

(** [self.client.evaluate_run(run, evaluator)]; the attribute lookup fails
    on the class of this file. *)
Definition client_evaluate_run (c : Client) (run : loc) (evaluator : RunEvaluator)
    : M unit := λ w,
  match c with
  | LangChainPlusClient =>
      (Raise (Exn AttributeError
                "'LangChainPlusClient' object has no attribute 'evaluate_run'"), w)
  | ClientWith evaluate_run =>
      let '(o, s, h) := evaluate_run (tracing w) run evaluator (sink w) (hp w) in
      (o, after_call {| call_run := run; call_evaluator := evaluator;
                        call_tracer := tracing w |} s h w)
  end.

(** [self.executor.submit(self._evaluate_in_project, run, evaluator)]: a
    new [Future] object, distinct from every existing one, pending, whose
    work item is queued.  Nothing in the program shuts the executor down,
    so [submit] does not raise. *)
Definition executor_submit (run : loc) (evaluator : RunEvaluator) : M Future := λ w,
  let f := fresh (dom (tasks w) ∪ futures w) in
  (Return f,
   set_tasks (<[f := {| arg_run := run; arg_evaluator := evaluator; _state := PENDING |}]>
                (tasks w)) w).

(** [self.futures.add(f)] *)
Definition futures_add (f : Future) : M unit := λ w,
  (Return tt, set_futures ({[f]} ∪ futures w) w).

(** [self.futures.remove(f)]: [set.remove] raises [KeyError] when the
    element is not a member. *)
Definition futures_remove (f : Future) : M unit := λ w,
  if decide (f ∈ futures w)
  then (Return tt, set_futures (futures w ∖ {[f]}) w)
  else (Raise (Exn KeyError "<Future>"), w).

(** *** [__init__] *)

(** [x or y] on an optional integer: [None] and [0] are falsy. *)
Definition int_or (x : option Z) (y : Z) : Z :=
  match x with
  | Some n => if decide (n = 0) then y else n
  | None => y
  end.

(** [example_id] is a [UUID] ([inl]) or a string ([inr]).  Three things of
    the constructor are outside this definition: the call of the base
    tracer's initialiser, which comes first and belongs to another file;
    the text of the [ValueError], which [UUID] chooses; and the truth test
    of [client or ...], a client object being taken as true, as an object
    is unless its class says otherwise. *)
Definition __init__ (evaluators0 : list RunEvaluator) (max_workers : option Z)
    (client0 : option Client) (example_id0 : option (UUID + string))
    (skip_unfinished0 : bool) (project_name0 : option string)
    : M EvaluatorCallbackHandler :=
  eid <- match example_id0 with
         | Some (inr s) =>
             match UUID_of_str s with
             | Some u => ret (Some u)
             | None => raise (Exn ValueError "badly formed hexadecimal UUID string")
             end
         | Some (inl u) => ret (Some u)
         | None => ret None
         end ;;
  λ w, (Return {| example_id := eid;
                  client := default LangChainPlusClient client0;
                  evaluators := evaluators0;
                  executor_max_workers :=
                    Z.max (int_or max_workers (Z.of_nat (length evaluators0))) 1;
                  skip_unfinished := skip_unfinished0;
                  project_name := project_name0 |},
        set_futures ∅ w).

(** *** [_evaluate_in_project] *)

Definition error_message (r : Run) (evaluator : RunEvaluator) (e : exn) : string :=
  "Error evaluating run " +:+ str_of_UUID (id r) +:+ " with "
    +:+ ev_class_name evaluator +:+ ": " +:+ exc_str e.

(** The two calls the method can make: the one under [if], which sees the
    tracer of the caller, and the one under [with], which sees the tracer
    the context manager installs. *)
Definition direct_call (run : loc) (evaluator : RunEvaluator) (w : world) : EvalCall :=
  {| call_run := run; call_evaluator := evaluator; call_tracer := tracing w |}.

Definition scoped_call (self : EvaluatorCallbackHandler) (run : loc)
    (evaluator : RunEvaluator) : EvalCall :=
  {| call_run := run; call_evaluator := evaluator;
     call_tracer := Some {| tr_project_name := project_name self; tr_tags := ["eval"] |} |}.

(** The record [logger.error] emits in the [except] clause. *)
Definition error_record (r : Run) (evaluator : RunEvaluator) (e : exn) : LogRecord :=
  {| levelname := ERROR; message := error_message r evaluator e; exc_info := Some e |}.

(** The body of the [try]. *)
Definition evaluate_body (self : EvaluatorCallbackHandler) (run : loc)
    (evaluator : RunEvaluator) : M unit :=
  (if decide (project_name self = None)
   then client_evaluate_run (client self) run evaluator
   else ret tt) ;;
  tracing_v2_enabled (project_name self) ["eval"]
    (client_evaluate_run (client self) run evaluator).

Definition _evaluate_in_project (self : EvaluatorCallbackHandler) (run : loc)
    (evaluator : RunEvaluator) : M unit :=
  try_except_Exception
    (evaluate_body self run evaluator)
    (λ e, r <- load_run run ;;
          logger_error (error_message r evaluator e) e ;;
          raise e).

(** *** [_persist_run] *)

(** [self.skip_unfinished and not run.outputs]; [and] does not evaluate
    its right operand when the left one is false. *)
Definition skipped (self : EvaluatorCallbackHandler) (r : Run) : M bool :=
  if skip_unfinished self then not_outputs r else ret false.

Definition _persist_run (self : EvaluatorCallbackHandler) (run : loc) : M unit :=
  r <- load_run run ;;
  skip <- skipped self r ;;
  if (skip : bool) then
    logger_debug ("Skipping unfinished run " +:+ str_of_UUID (id r))
  else
    run_ <- Run_copy run ;;
    set_reference_example_id run_ (example_id self) ;;
    for_each (evaluators self) (λ evaluator,
      f <- executor_submit run_ evaluator ;;
      futures_add f).

End Handler.

(** ** The executor's workers and the other threads *)

Section Threads.
Context `{!Externals}.

(** [Future.done()]; a future the executor never created is never done. *)
Definition done (w : world) (f : Future) : bool :=
  match tasks w !! f with
  | Some t => match _state t with FINISHED _ => true | PENDING => false end
  | None => false
  end.

Definition finish (f : Future) (t : Task) (exception : option exn) (w : world) : world :=
  set_tasks (<[f := {| arg_run := arg_run t; arg_evaluator := arg_evaluator t;
                       _state := FINISHED exception |}]> (tasks w)) w.

(** A worker takes the work item of [f] and runs it: the call's result or
    whatever it raises, [BaseException] included, is stored in the future. *)
Definition work_item_run (self : EvaluatorCallbackHandler) (f : Future) (w : world)
    : world :=
  match tasks w !! f with
  | Some t =>
      match _state t with
      | PENDING =>
          match _evaluate_in_project self (arg_run t) (arg_evaluator t) w with
          | (Return _, w') => finish f t None w'
          | (Raise e, w') => finish f t (Some e) w'
          | (Stuck, _) => w
          end
      | FINISHED _ => w
      end
  | None => w
  end.

(** What another thread does while the caller is suspended. *)
Inductive event :=
| Worker (f : Future)      (* a worker thread runs the work item of [f] *)
| Persist (run : loc)      (* the tracing framework persists another run *)
| Remove (f : Future).     (* a concurrent [wait_for_futures] removes [f] *)

Definition step (self : EvaluatorCallbackHandler) (ev : event) (w : world) : world :=
  match ev with
  | Worker f => work_item_run self f w
  | Persist run => snd (_persist_run self run w)
  | Remove f => snd (futures_remove f w)
  end.

(** [concurrent.futures.wait(fs)]: returns as soon as every future of [fs]
    is done; until then the other threads run.  [None]: the schedule ends
    with the caller still suspended. *)
Fixpoint wait (self : EvaluatorCallbackHandler) (fs : list Future)
    (schedule : list event) (w : world) : option world :=
  if forallb (done w) fs then Some w
  else match schedule with
       | [] => None
       | ev :: schedule' => wait self fs schedule' (step self ev w)
       end.

(** The world after the other threads have made the moves of a schedule. *)
Definition run_schedule (self : EvaluatorCallbackHandler) (schedule : list event)
    (w : world) : world :=
  foldl (λ w ev, step self ev w) w schedule.

Definition is_Remove (ev : event) : bool :=
  match ev with Remove _ => true | _ => false end.

(** The loop [for future in futures: self.futures.remove(future)]. *)
Definition remove_all (fs : list Future) : M unit :=
  for_each fs futures_remove.

(** *** [wait_for_futures] *)

(** [list(self.futures)] is taken in one step, and the other threads move
    while the caller is inside [wait], not between two removals. *)
Definition wait_for_futures (self : EvaluatorCallbackHandler)
    (schedule : list event) (w : world) : option (outcome unit * world) :=
  let futures_ := elements (futures w) in
  match wait self futures_ schedule w with
  | Some w' => Some (remove_all futures_ w')
  | None => None
  end.

Definition is_Worker (ev : event) : bool :=
  match ev with Worker _ => true | _ => false end.

Definition is_Persist (ev : event) : bool :=
  match ev with Persist _ => true | _ => false end.

(** What Python grants of any client: its method returns or raises, and the
    objects that exist when it is called still exist afterwards. *)
Definition sound_client (c : Client) : Prop :=
  match c with
  | LangChainPlusClient => True
  | ClientWith evaluate_run =>
      ∀ t run evaluator s h,
        (evaluate_run t run evaluator s h).1.1 ≠ Stuck
        ∧ dom (runs h) ⊆ dom (runs (evaluate_run t run evaluator s h).2)
  end.

(** The exception of the attribute lookup in [client_evaluate_run]. *)
Definition no_evaluate_run : exn :=
  Exn AttributeError "'LangChainPlusClient' object has no attribute 'evaluate_run'".

(** The attribute [example_id] that [__init__] computes from its argument. *)
Definition parsed_example_id (example_id0 : option (UUID + string)) : option UUID :=
  match example_id0 with
  | Some (inl u) => Some u
  | Some (inr s) => UUID_of_str s
  | None => None
  end.

End Threads.

(** ** A concrete setting, to run the handler on *)

Module Demo.

#[export] Instance ext : Externals := {|
  UUID := N;
  UUID_of_str := λ s, if decide (String.length s = 36%nat) then Some (N.of_nat (String.length s)) else None;
  str_of_UUID := λ u, pretty u;
  RunRest := string;
  Sink := list string;
|}.

Definition relevance : RunEvaluator := {| ev_ident := 0; ev_class_name := "RelevanceEvaluator" |}.
Definition toxicity : RunEvaluator := {| ev_ident := 1; ev_class_name := "ToxicityEvaluator" |}.

(** A client whose [evaluate_run] posts the evaluator's name as feedback. *)
Definition posting : Client :=
  ClientWith (λ _ _ ev s h, (Return tt, s ++ [ev_class_name ev], h)).

(** A client whose [evaluate_run] fails for one evaluator. *)
Definition failing (e : exn) : Client :=
  ClientWith (λ _ _ ev s h,
    if decide (ev_ident ev = ev_ident toxicity) then (Raise e, s, h)
    else (Return tt, s ++ [ev_class_name ev], h)).

(** A client whose [evaluate_run] reports the [rest] attribute it finds on
    the run, then overwrites it with the evaluator's name. *)
Definition stamping : Client :=
  ClientWith (λ _ run ev s h,
    match runs h !! run with
    | Some r =>
        (Return tt, s ++ [rest r],
         {| runs := <[run := {| id := id r; outputs := outputs r;
                                reference_example_id := reference_example_id r;
                                rest := ev_class_name ev |}]> (runs h);
            dicts := dicts h |})
    | None => (Stuck, s, h)
    end).

Definition handler (c : Client) (project : option string) : EvaluatorCallbackHandler :=
  {| example_id := Some 7%N; client := c; evaluators := [relevance; toxicity];
     executor_max_workers := 2; skip_unfinished := true; project_name := project |}.

(** One finished run (its outputs hold an answer) and one unfinished. *)
Definition finished_run : Run :=
  {| id := 41%N; outputs := Some 1%positive; reference_example_id := None; rest := "llm" |}.
Definition unfinished_run : Run :=
  {| id := 42%N; outputs := None; reference_example_id := None; rest := "chain" |}.

Definition w0 : world :=
  {| futures := ∅; tasks := ∅;
     hp := {| runs := {[ 1%positive := finished_run; 2%positive := unfinished_run ]};
              dicts := {[ 1%positive := {[ "output" := "42" ]} ]} |};
     tracing := None; records := []; sink := []; calls := [] |}.

Definition bad_score : exn := Exn ValueError "bad score".
Definition exit : exn := Exn SystemExit "0".

(** The finished run has been persisted: two futures are pending. *)
Definition submitted : world := snd (_persist_run (handler posting None) 1%positive w0).

(** While the caller waits: a worker finishes the first future, the
    finished run is persisted once more, a worker finishes the second
    future, and later one of the new ones. *)
Definition meanwhile : list event :=
  [Worker 1%positive; Persist 1%positive; Worker 2%positive; Worker 3%positive].

Definition joined : world :=
  match wait_for_futures (handler posting None) meanwhile submitted with
  | Some (_, w) => w
  | None => submitted
  end.

(** While the caller waits, a concurrent caller removes the first future. *)
(** A handler built without a client. *)
Definition bare : EvaluatorCallbackHandler :=
  {| example_id := None; client := LangChainPlusClient; evaluators := [relevance];
     executor_max_workers := 1; skip_unfinished := true; project_name := Some "evals" |}.

(** While the caller waits, the workers run and nothing is submitted. *)
Definition quiet : list event := [Worker 1%positive; Worker 2%positive].

Definition settled : world :=
  match wait_for_futures (handler posting None) quiet submitted with
  | Some (_, w) => w
  | None => submitted
  end.

(** A handler with nothing to run. *)
Definition idle : EvaluatorCallbackHandler :=
  {| example_id := None; client := posting; evaluators := [];
     executor_max_workers := 1; skip_unfinished := false; project_name := None |}.

Definition raced : list event :=
  [Worker 1%positive; Remove 1%positive; Worker 2%positive].

End Demo.


(** * Properties *)

Section Evaluate.
Context `{!Externals}.
Implicit Types (self : EvaluatorCallbackHandler) (run : loc) (evaluator : RunEvaluator).
Implicit Types (w : world) (e : exn).

(** One call of a client that has the method: the call is recorded with
    the tracer installed at that moment, and only the scoring service and
    the objects change. *)
Lemma client_evaluate_run_call evaluate_run run evaluator w :
  client_evaluate_run (ClientWith evaluate_run) run evaluator w =
    (let '(o, s, h) := evaluate_run (tracing w) run evaluator (sink w) (hp w) in
     (o, after_call {| call_run := run; call_evaluator := evaluator;
                       call_tracer := tracing w |} s h w)).
Proof. reflexivity. Qed.

Lemma client_evaluate_run_frame c run evaluator w :
  let w' := snd (client_evaluate_run c run evaluator w) in
  futures w' = futures w ∧ tasks w' = tasks w ∧ records w' = records w
  ∧ tracing w' = tracing w.
Proof.
  destruct c as [|f]; simpl; [done|].
  destruct (f _ _ _ _ _) as [[o s] h]; done.
Qed.

(** The body of the [try] touches neither the registry, nor the
    executor's futures, nor the log, and leaves the tracer as it found
    it. *)
Lemma evaluate_body_frame self run evaluator w :
  let w' := snd (evaluate_body self run evaluator w) in
  futures w' = futures w ∧ tasks w' = tasks w ∧ records w' = records w
  ∧ tracing w' = tracing w.
Proof.
  unfold evaluate_body, bind, tracing_v2_enabled.
  destruct (decide (project_name self = None)) as [Hp|Hp].
  - pose proof (client_evaluate_run_frame (client self) run evaluator w) as H1.
    destruct (client_evaluate_run (client self) run evaluator w) as [[[]|e|] w1];
      simpl in *; try done.
    match goal with |- context [client_evaluate_run ?c ?r ?v ?x] =>
      pose proof (client_evaluate_run_frame c r v x) as H2;
      destruct (client_evaluate_run c r v x) as [o2 w2] end.
    simpl in *. intuition congruence.
  - unfold ret.
    match goal with |- context [client_evaluate_run ?c ?r ?v ?x] =>
      pose proof (client_evaluate_run_frame c r v x) as H2;
      destruct (client_evaluate_run c r v x) as [o2 w2] end.
    simpl in *. intuition congruence.
Qed.

(** How [_evaluate_in_project] finishes, from how the body of its [try]
    does. *)
Lemma evaluate_in_project_unfold self run evaluator w :
  _evaluate_in_project self run evaluator w =
    match evaluate_body self run evaluator w with
    | (Raise e, w1) =>
        if isinstance_Exception e then
          match runs (hp w1) !! run with
          | Some r =>
              (Raise e, set_records (records w1 ++ [error_record r evaluator e]) w1)
          | None => (Stuck, w1)
          end
        else (Raise e, w1)
    | r => r
    end.
Proof.
  unfold _evaluate_in_project, try_except_Exception.
  destruct (evaluate_body self run evaluator w) as [[[]|e|] w1]; try done.
  destruct (isinstance_Exception e); [|done].
  unfold bind, load_run. destruct (runs (hp w1) !! run); done.
Qed.

Lemma evaluate_in_project_frame self run evaluator w :
  let w' := snd (_evaluate_in_project self run evaluator w) in
  futures w' = futures w ∧ tasks w' = tasks w ∧ tracing w' = tracing w.
Proof.
  rewrite evaluate_in_project_unfold.
  pose proof (evaluate_body_frame self run evaluator w) as Hbody.
  destruct (evaluate_body self run evaluator w) as [[[]|e|] w1]; simpl in *;
    [tauto| |tauto].
  destruct (isinstance_Exception e); [|tauto].
  destruct (runs (hp w1) !! run); simpl; tauto.
Qed.

(** What the body of the [try] does is what the calls of [evaluate_run] do:
    under a project name the outcome of the one call; without, the outcome
    of the first call unless it returns, and then that of the second. *)
Lemma evaluate_body_outcome self run evaluator w evaluate_run :
  client self = ClientWith evaluate_run →
  fst (evaluate_body self run evaluator w)
  = if decide (project_name self = None) then
      match evaluate_run (tracing w) run evaluator (sink w) (hp w) with
      | (Return _, s, h) =>
          (evaluate_run (call_tracer (scoped_call self run evaluator)) run evaluator s h).1.1
      | (o, _, _) => o
      end
    else
      (evaluate_run (call_tracer (scoped_call self run evaluator)) run evaluator
         (sink w) (hp w)).1.1.
Proof.
  intros Hc. unfold evaluate_body, bind, tracing_v2_enabled, ret. rewrite Hc.
  destruct (decide (project_name self = None)) as [Hd|Hd].
  - rewrite client_evaluate_run_call.
    destruct (evaluate_run (tracing w) _ _ _ _) as [[[[]|e|] s1] h1]; simpl; try done.
    by destruct (evaluate_run _ _ _ _ _) as [[o s] h].
  - rewrite client_evaluate_run_call. simpl.
    by destruct (evaluate_run _ _ _ _ _) as [[o s] h].
Qed.

(** C1, amended.  With a client that has the method: when a project name
    is configured only the call under [with] is made, so evaluate runs
    once; when none is configured the call under [if] is made first and,
    if it returns, the call under [with] follows, so evaluate runs twice;
    if the first call does not return normally the second is not made. *)
Theorem evaluate_in_project_calls self run evaluator w evaluate_run :
  client self = ClientWith evaluate_run →
  (project_name self ≠ None →
     calls (snd (_evaluate_in_project self run evaluator w))
     = calls w ++ [scoped_call self run evaluator])
  ∧ (project_name self = None →
     (evaluate_run (tracing w) run evaluator (sink w) (hp w)).1.1 = Return tt →
     calls (snd (_evaluate_in_project self run evaluator w))
     = calls w ++ [direct_call run evaluator w; scoped_call self run evaluator])
  ∧ (project_name self = None →
     (evaluate_run (tracing w) run evaluator (sink w) (hp w)).1.1 ≠ Return tt →
     calls (snd (_evaluate_in_project self run evaluator w))
     = calls w ++ [direct_call run evaluator w]).
Proof.
  intros Hc. rewrite evaluate_in_project_unfold.
  unfold evaluate_body, bind, tracing_v2_enabled, ret. rewrite Hc.
  repeat split; intros Hp.
  - destruct (decide (project_name self = None)) as [Hd|Hd]; [done|].
    rewrite client_evaluate_run_call. simpl.
    destruct (evaluate_run _ _ _ _ _) as [[[[]|e|] s] h]; simpl; try done.
    destruct (isinstance_Exception e); [|done].
    destruct (runs h !! run); done.
  - intros Hfirst. destruct (decide (project_name self = None)) as [Hd|Hd]; [|done].
    rewrite client_evaluate_run_call.
    destruct (evaluate_run (tracing w) _ _ _ _) as [[o1 s1] h1]; simpl in Hfirst.
    subst o1. rewrite client_evaluate_run_call. simpl.
    destruct (evaluate_run _ _ _ _ _) as [[[[]|e|] s] h]; simpl;
      rewrite <- ?(assoc_L (++)); try done.
    destruct (isinstance_Exception e); [destruct (runs h !! run)|];
      simpl; by rewrite <- ?(assoc_L (++)).
  - intros Hfirst. destruct (decide (project_name self = None)) as [Hd|Hd]; [|done].
    rewrite client_evaluate_run_call.
    destruct (evaluate_run (tracing w) _ _ _ _) as [[[[]|e|] s1] h1];
      simpl in *; try done.
    destruct (isinstance_Exception e); [|done].
    destruct (runs h1 !! run); done.
Qed.

(** C7, amended.  If the body of the [try] raises an instance of
    [Exception], one error record is logged, whose message holds the run's
    id, the evaluator's class name and the exception's text and which
    carries the exception, and the same exception is raised again; an
    exception outside [Exception] propagates with nothing logged; if the
    body returns, nothing is logged and nothing is raised. *)
Theorem evaluate_in_project_failure self run evaluator w o w1 :
  evaluate_body self run evaluator w = (o, w1) →
  records w1 = records w
  ∧ (o = Return tt → _evaluate_in_project self run evaluator w = (Return tt, w1))
  ∧ (∀ e r, o = Raise e → isinstance_Exception e = true →
       runs (hp w1) !! run = Some r →
       _evaluate_in_project self run evaluator w
       = (Raise e, set_records (records w ++ [error_record r evaluator e]) w1))
  ∧ (∀ e, o = Raise e → isinstance_Exception e = false →
       _evaluate_in_project self run evaluator w = (Raise e, w1)).
Proof.
  intros Hbody.
  pose proof (evaluate_body_frame self run evaluator w) as (_ & _ & Hrec & _).
  rewrite Hbody in Hrec. simpl in Hrec.
  rewrite evaluate_in_project_unfold, Hbody.
  split; [done|]. split; [|split].
  - by intros ->.
  - intros e r -> -> ->. by rewrite Hrec.
  - by intros e -> ->.
Qed.

End Evaluate.

Section Persist.
Context `{!Externals}.
Implicit Types (self : EvaluatorCallbackHandler) (run : loc) (r : Run) (w : world).

(** The gate only reads. *)
Lemma skipped_reads self r w : snd (skipped self r w) = w.
Proof.
  unfold skipped, not_outputs, ret. destruct (skip_unfinished self); [|done].
  destruct (outputs r) as [d|]; [|done]. destruct (dicts (hp w) !! d); done.
Qed.

(** A run with no outputs is skipped by a handler that skips unfinished
    runs. *)
Lemma skipped_no_outputs self r w :
  skip_unfinished self = true →
  outputs r = None ∨ (∃ d, outputs r = Some d ∧ dicts (hp w) !! d = Some ∅) →
  skipped self r w = (Return true, w).
Proof.
  intros Hs Ho. unfold skipped, not_outputs. rewrite Hs.
  destruct Ho as [->|(d & -> & ->)]; [done|].
  by rewrite bool_decide_eq_true_2.
Qed.

(** A run is eligible when the handler does not skip unfinished runs, or
    when the run has outputs. *)
Lemma skipped_eligible self r w :
  skip_unfinished self = false
  ∨ (∃ d kv, outputs r = Some d ∧ dicts (hp w) !! d = Some kv ∧ kv ≠ ∅) →
  skipped self r w = (Return false, w).
Proof.
  intros Ho. unfold skipped, not_outputs, ret.
  destruct Ho as [->|(d & kv & Hd & Hkv & Hne)]; [done|].
  destruct (skip_unfinished self); [|done].
  rewrite Hd, Hkv. by rewrite bool_decide_eq_false_2.
Qed.

(** The loop of [_persist_run]: one new pending future per evaluator, in
    the order of the evaluators, each added to the registry. *)
Lemma submit_loop run_ (evs : list RunEvaluator) w :
  ∃ fs w',
    for_each evs (λ evaluator, bind (executor_submit run_ evaluator) futures_add) w
    = (Return tt, w')
    ∧ length fs = length evs
    ∧ NoDup fs
    ∧ (∀ f, f ∈ fs → (f ∉ futures w) ∧ tasks w !! f = None)
    ∧ futures w' = list_to_set fs ∪ futures w
    ∧ (∀ i f, fs !! i = Some f → ∃ evaluator, evs !! i = Some evaluator
         ∧ tasks w' !! f
           = Some {| arg_run := run_; arg_evaluator := evaluator; _state := PENDING |})
    ∧ (∀ f, f ∉ fs → tasks w' !! f = tasks w !! f)
    ∧ hp w' = hp w ∧ records w' = records w ∧ sink w' = sink w
    ∧ calls w' = calls w ∧ tracing w' = tracing w.
Proof.
  revert w. induction evs as [|ev evs IH]; intros w.
  - exists [], w. simpl. unfold ret. split_and!; try done.
    + constructor.
    + intros f Hf. by apply elem_of_nil in Hf.
    + set_solver.
  - set (f := fresh (dom (tasks w) ∪ futures w)).
    assert (Hfresh : f ∉ dom (tasks w) ∪ futures w) by apply is_fresh.
    set (w1 := set_futures ({[f]} ∪ futures w)
                 (set_tasks (<[f := {| arg_run := run_; arg_evaluator := ev;
                                       _state := PENDING |}]> (tasks w)) w)).
    destruct (IH w1) as (fs & w' & Hrun & Hlen & Hnd & Hnew & Hfut & Htask & Hold & Hrest).
    exists (f :: fs), w'.
    assert (Hf_fs : f ∉ fs).
    { intros Hin. apply Hnew in Hin as [Hin _]. apply Hin. subst w1. simpl. set_solver. }
    split; [|split; [|split; [|split; [|split; [|split; [|split]]]]]].
    + simpl. unfold bind at 1. unfold bind at 1.
      unfold executor_submit, futures_add. fold f. exact Hrun.
    + simpl. by rewrite Hlen.
    + by constructor.
    + intros g Hg. apply elem_of_cons in Hg as [->|Hg].
      * split; [set_solver|]. apply not_elem_of_dom. set_solver.
      * apply Hnew in Hg as [Hg1 Hg2]. subst w1. simpl in *.
        split; [set_solver|].
        destruct (decide (f = g)) as [->|Hne]; [by rewrite lookup_insert_eq in Hg2|].
        by rewrite lookup_insert_ne in Hg2.
    + rewrite Hfut. subst w1. simpl. set_solver.
    + intros [|i] g Hg; simpl in Hg.
      * injection Hg as <-. exists ev. split; [done|].
        rewrite Hold by done. subst w1. simpl. by rewrite lookup_insert_eq.
      * by apply Htask.
    + intros g Hg. apply not_elem_of_cons in Hg as [Hg1 Hg2].
      rewrite Hold by done. subst w1. simpl. by rewrite lookup_insert_ne.
    + subst w1. simpl in Hrest. exact Hrest.
Qed.

(** The copy [_persist_run] works on: the attributes of the run, with
    [reference_example_id] rebound. *)
Lemma persist_run_eligible self run r w :
  runs (hp w) !! run = Some r →
  skipped self r w = (Return false, w) →
  ∃ fs w',
    _persist_run self run w = (Return tt, w')
    ∧ runs (hp w')
      = <[fresh (dom (runs (hp w))) :=
            {| id := id r; outputs := outputs r;
               reference_example_id := example_id self; rest := rest r |}]>
          (runs (hp w))
    ∧ dicts (hp w') = dicts (hp w)
    ∧ length fs = length (evaluators self)
    ∧ NoDup fs
    ∧ (∀ f, f ∈ fs → (f ∉ futures w) ∧ tasks w !! f = None)
    ∧ futures w' = list_to_set fs ∪ futures w
    ∧ (∀ i f, fs !! i = Some f → ∃ evaluator, evaluators self !! i = Some evaluator
         ∧ tasks w' !! f
           = Some {| arg_run := fresh (dom (runs (hp w))); arg_evaluator := evaluator;
                     _state := PENDING |})
    ∧ (∀ f, f ∉ fs → tasks w' !! f = tasks w !! f)
    ∧ records w' = records w ∧ sink w' = sink w
    ∧ calls w' = calls w ∧ tracing w' = tracing w.
Proof.
  intros Hrun Hskip.
  set (run_ := fresh (dom (runs (hp w)))).
  set (r_ := {| id := id r; outputs := outputs r;
                reference_example_id := example_id self; rest := rest r |}).
  set (w1 := set_runs (<[run_ := r_]> (runs (hp w))) w).
  destruct (submit_loop run_ (evaluators self) w1)
    as (fs & w' & Hloop & Hlen & Hnd & Hnew & Hfut & Htask & Hold & Hhp & Hrest).
  exists fs, w'.
  split; [|split; [|split]].
  - unfold _persist_run. unfold bind at 1. unfold load_run at 1. rewrite Hrun.
    unfold bind at 1. rewrite Hskip.
    unfold bind at 1. unfold Run_copy. unfold bind at 1. unfold load_run at 1.
    rewrite Hrun. fold run_.
    unfold bind at 1. unfold set_reference_example_id.
    unfold bind at 1. unfold load_run at 1. simpl.
    rewrite lookup_insert_eq. simpl. rewrite insert_insert_eq.
    fold r_. exact Hloop.
  - rewrite Hhp. done.
  - rewrite Hhp. done.
  - subst w1. simpl in *. done.
Qed.

(** Outside the two outcomes above [_persist_run] changes nothing in the
    store; in every case it leaves the existing objects as they are and
    allocates at most the copy. *)
Lemma persist_run_store self run w :
  dicts (hp (snd (_persist_run self run w))) = dicts (hp w)
  ∧ (runs (hp (snd (_persist_run self run w))) = runs (hp w)
     ∨ ∃ r, runs (hp w) !! run = Some r
         ∧ runs (hp (snd (_persist_run self run w)))
           = <[fresh (dom (runs (hp w))) :=
                 {| id := id r; outputs := outputs r;
                    reference_example_id := example_id self; rest := rest r |}]>
               (runs (hp w))).
Proof.
  destruct (runs (hp w) !! run) as [r|] eqn:Hrun.
  - pose proof (skipped_reads self r w) as Hsk.
    destruct (skipped self r w) as [[[|]|e|] w1] eqn:Hskip; simpl in Hsk; subst w1.
    + unfold _persist_run, bind, load_run. rewrite Hrun, Hskip. simpl. tauto.
    + destruct (persist_run_eligible self run r w Hrun Hskip)
        as (fs & w' & -> & Hruns & Hdicts & _).
      simpl. split; [done|]. right. by exists r.
    + unfold _persist_run, bind, load_run. rewrite Hrun, Hskip. simpl. tauto.
    + unfold _persist_run, bind, load_run. rewrite Hrun, Hskip. simpl. tauto.
  - unfold _persist_run, bind, load_run. rewrite Hrun. simpl. tauto.
Qed.

(** C4.  For an eligible run [_persist_run] returns with one new future
    per evaluator in the registry: as many as there are evaluators, all
    distinct and none of them there before, each holding the work item of
    its evaluator and still pending; no call of [evaluate_run] has been
    made by then, whatever the client would answer. *)
Theorem persist_run_one_task_per_evaluator self run r w :
  runs (hp w) !! run = Some r →
  skip_unfinished self = false
  ∨ (∃ d kv, outputs r = Some d ∧ dicts (hp w) !! d = Some kv ∧ kv ≠ ∅) →
  ∃ fs w',
    _persist_run self run w = (Return tt, w')
    ∧ length fs = length (evaluators self)
    ∧ NoDup fs
    ∧ (∀ f, f ∈ fs → f ∉ futures w)
    ∧ futures w' = list_to_set fs ∪ futures w
    ∧ size (futures w') = (size (futures w) + length (evaluators self))%nat
    ∧ (∀ i f, fs !! i = Some f → ∃ run_ evaluator,
         evaluators self !! i = Some evaluator
         ∧ tasks w' !! f
           = Some {| arg_run := run_; arg_evaluator := evaluator; _state := PENDING |})
    ∧ calls w' = calls w ∧ sink w' = sink w.
Proof.
  intros Hrun Hel. apply (skipped_eligible self r w) in Hel.
  destruct (persist_run_eligible self run r w Hrun Hel)
    as (fs & w' & Hp & _ & _ & Hlen & Hnd & Hnew & Hfut & Htask & _ & _ & Hsink & Hcalls & _).
  exists fs, w'. split_and!; try done.
  - intros f Hf. by apply Hnew.
  - rewrite Hfut, size_union.
    + rewrite size_list_to_set by done. lia.
    + intros f Hf1 Hf2. apply elem_of_list_to_set in Hf1. by apply Hnew in Hf1 as [? _].
  - intros i f Hf. destruct (Htask i f Hf) as (ev & ? & ?). eauto.
Qed.

(** C5.  For a run with no outputs ([None] or an empty dictionary), a
    handler that skips unfinished runs returns after logging one debug
    record: nothing is dispatched and the registry is as it was. *)
Theorem persist_run_skips_unfinished self run r w :
  runs (hp w) !! run = Some r →
  skip_unfinished self = true →
  outputs r = None ∨ (∃ d, outputs r = Some d ∧ dicts (hp w) !! d = Some ∅) →
  _persist_run self run w
  = (Return tt,
     set_records (records w ++
       [{| levelname := DEBUG;
           message := "Skipping unfinished run " +:+ str_of_UUID (id r);
           exc_info := None |}]) w)
  ∧ futures (snd (_persist_run self run w)) = futures w
  ∧ tasks (snd (_persist_run self run w)) = tasks w.
Proof.
  intros Hrun Hs Ho.
  assert (Heq : _persist_run self run w
                = (Return tt,
                   set_records (records w ++
                     [{| levelname := DEBUG;
                         message := "Skipping unfinished run " +:+ str_of_UUID (id r);
                         exc_info := None |}]) w)).
  { unfold _persist_run, bind, load_run. rewrite Hrun.
    by rewrite (skipped_no_outputs self r w Hs Ho). }
  by rewrite Heq.
Qed.

(** C6.  Whatever the run and the handler, [_persist_run] leaves every
    object that existed before the call as it was, the run it is given
    among them, and the dictionaries too; the only object it may add is
    the copy, which has the attributes of the run except for
    [reference_example_id], set to the handler's [example_id]. *)
Theorem persist_run_preserves_original self run w :
  (∀ l r, runs (hp w) !! l = Some r →
     runs (hp (snd (_persist_run self run w))) !! l = Some r)
  ∧ dicts (hp (snd (_persist_run self run w))) = dicts (hp w)
  ∧ (∀ l r_, runs (hp (snd (_persist_run self run w))) !! l = Some r_ →
       runs (hp w) !! l = None →
       ∃ r, runs (hp w) !! run = Some r
          ∧ r_ = {| id := id r; outputs := outputs r;
                    reference_example_id := example_id self; rest := rest r |}).
Proof.
  destruct (persist_run_store self run w) as [Hd [Hr|(r & Hrun & Hr)]].
  - rewrite Hr. split_and!; [done|done|]. intros l r_ H1 H2. congruence.
  - rewrite Hr.
    assert (Hfresh : runs (hp w) !! fresh (dom (runs (hp w))) = None).
    { apply not_elem_of_dom, is_fresh. }
    split_and!; [|done|].
    + intros l r0 Hl. rewrite lookup_insert_ne; [done|]. intros <-. congruence.
    + intros l r_ H1 H2. exists r. split; [done|].
      destruct (decide (fresh (dom (runs (hp w))) = l)) as [<-|Hne].
      * rewrite lookup_insert_eq in H1. congruence.
      * rewrite lookup_insert_ne in H1 by done. congruence.
Qed.

(** C10.  For an eligible run [_persist_run] allocates exactly one object,
    the copy, and every future it adds holds a work item whose run is that
    one object: the tasks share it, so that each of them reads, in any
    later store, what any other has written there. *)
Theorem persist_run_shares_one_copy self run r w :
  runs (hp w) !! run = Some r →
  skip_unfinished self = false
  ∨ (∃ d kv, outputs r = Some d ∧ dicts (hp w) !! d = Some kv ∧ kv ≠ ∅) →
  ∃ run_ fs w',
    _persist_run self run w = (Return tt, w')
    ∧ runs (hp w) !! run_ = None
    ∧ dom (runs (hp w')) = {[run_]} ∪ dom (runs (hp w))
    ∧ length fs = length (evaluators self)
    ∧ futures w' ∖ futures w = list_to_set fs
    ∧ (∀ f, f ∈ fs → ∃ t, tasks w' !! f = Some t ∧ arg_run t = run_)
    ∧ (∀ f1 f2 t1 t2 (h : heap), f1 ∈ fs → f2 ∈ fs →
         tasks w' !! f1 = Some t1 → tasks w' !! f2 = Some t2 →
         runs h !! arg_run t1 = runs h !! arg_run t2).
Proof.
  intros Hrun Hel. apply (skipped_eligible self r w) in Hel.
  destruct (persist_run_eligible self run r w Hrun Hel)
    as (fs & w' & Hp & Hruns & _ & Hlen & Hnd & Hnew & Hfut & Htask & _).
  exists (fresh (dom (runs (hp w)))), fs, w'.
  assert (Hall : ∀ f, f ∈ fs →
            ∃ t, tasks w' !! f = Some t ∧ arg_run t = fresh (dom (runs (hp w)))).
  { intros f Hf. apply list_elem_of_lookup in Hf as [i Hi].
    destruct (Htask i f Hi) as (ev & _ & Ht). eauto. }
  split_and!; try done.
  - apply not_elem_of_dom, is_fresh.
  - by rewrite Hruns, dom_insert_L.
  - rewrite Hfut. apply set_eq. intros f.
    rewrite elem_of_difference, elem_of_union, elem_of_list_to_set.
    split; [tauto|]. intros Hf. split; [tauto|]. by apply Hnew.
  - intros f1 f2 t1 t2 h Hf1 Hf2 Ht1 Ht2.
    destruct (Hall f1 Hf1) as (t1' & Ht1' & E1).
    destruct (Hall f2 Hf2) as (t2' & Ht2' & E2).
    congruence.
Qed.

End Persist.

Section Join.
Context `{!Externals}.
Implicit Types (self : EvaluatorCallbackHandler) (w : world) (f : Future).
Implicit Types (fs : list Future) (schedule : list event).

(** *** The removal loop *)

Lemma remove_all_present fs w :
  NoDup fs → (∀ f, f ∈ fs → f ∈ futures w) →
  remove_all fs w = (Return tt, set_futures (futures w ∖ list_to_set fs) w).
Proof.
  intros Hnd. revert w. induction Hnd as [|f fs Hf Hnd IH]; intros w Hin.
  - simpl. unfold remove_all, ret. simpl. f_equal.
    destruct w. unfold set_futures. simpl. f_equal. set_solver.
  - unfold remove_all in *. simpl. unfold bind, futures_remove at 1.
    rewrite decide_True by (apply Hin; left).
    rewrite IH.
    + simpl. f_equal. unfold set_futures. simpl. f_equal. set_solver.
    + intros g Hg. simpl. apply elem_of_difference. split.
      * apply Hin. by right.
      * intros ->%elem_of_singleton. done.
Qed.

Lemma remove_all_absent fs w f :
  f ∈ fs → f ∉ futures w →
  ∃ w', remove_all fs w = (Raise (Exn KeyError "<Future>"), w').
Proof.
  revert w. induction fs as [|g fs IH]; intros w Hin Hout.
  - by apply elem_of_nil in Hin.
  - unfold remove_all in *. simpl. unfold bind, futures_remove at 1.
    destruct (decide (g ∈ futures w)) as [Hg|Hg]; [|eauto].
    apply elem_of_cons in Hin as [->|Hin]; [done|].
    apply IH; [done|]. simpl. set_solver.
Qed.

(** *** [wait] *)

(** [wait] returns in a world where the futures it was given are done. *)
Lemma wait_done self fs schedule w w1 :
  wait self fs schedule w = Some w1 → forallb (done w1) fs = true.
Proof.
  revert w. induction schedule as [|ev schedule IH]; intros w; simpl.
  - destruct (forallb (done w) fs) eqn:Hd; [|done]. by intros [= <-].
  - destruct (forallb (done w) fs) eqn:Hd; [by intros [= <-]|]. apply IH.
Qed.

(** [wait] returns at the first moment the futures it was given are all
    done: after the least number of moves of the other threads for which
    that holds. *)
Lemma wait_first self fs schedule w w1 :
  wait self fs schedule w = Some w1 →
  ∃ k, (k ≤ length schedule)%nat
     ∧ w1 = run_schedule self (take k schedule) w
     ∧ ∀ j, (j < k)%nat →
         forallb (done (run_schedule self (take j schedule) w)) fs = false.
Proof.
  revert w. induction schedule as [|ev schedule IH]; intros w; simpl.
  - destruct (forallb (done w) fs) eqn:Hd; [|done]. intros [= <-].
    exists 0%nat. split_and!; [done|done|]. intros j Hj. lia.
  - destruct (forallb (done w) fs) eqn:Hd.
    + intros [= <-]. exists 0%nat. split_and!; [lia|done|]. intros j Hj. lia.
    + intros Hw. destruct (IH _ Hw) as (k & Hk & -> & Hmin).
      exists (S k). split_and!; [lia|done|].
      intros [|j] Hj; [done|]. simpl. apply Hmin. lia.
Qed.

(** If the other threads get the futures done at some point of the
    schedule, [wait] returns. *)
Lemma wait_returns self fs schedule w k :
  forallb (done (run_schedule self (take k schedule) w)) fs = true →
  is_Some (wait self fs schedule w).
Proof.
  revert w k. induction schedule as [|ev schedule IH]; intros w k; simpl.
  - rewrite take_nil. simpl. intros ->. eauto.
  - destruct (forallb (done w) fs) eqn:Hd; [eauto|].
    destruct k as [|k]; simpl; [congruence|]. apply IH.
Qed.

(** *** The registry while the caller is suspended *)

Lemma work_item_run_futures self f w : futures (work_item_run self f w) = futures w.
Proof.
  unfold work_item_run. destruct (tasks w !! f) as [t|]; [|done].
  destruct (_state t); [|done].
  pose proof (evaluate_in_project_frame self (arg_run t) (arg_evaluator t) w) as (Hf & _).
  destruct (_evaluate_in_project _ _ _ w) as [[[]|e|] w1]; simpl in *; done.
Qed.

Lemma persist_run_futures self run w :
  futures w ⊆ futures (snd (_persist_run self run w)).
Proof.
  destruct (runs (hp w) !! run) as [r|] eqn:Hrun.
  - pose proof (skipped_reads self r w) as Hsk.
    destruct (skipped self r w) as [[[|]|e|] w1] eqn:Hskip; simpl in Hsk; subst w1.
    + unfold _persist_run, bind, load_run. by rewrite Hrun, Hskip.
    + destruct (persist_run_eligible self run r w Hrun Hskip)
        as (fs & w' & -> & _ & _ & _ & _ & _ & Hfut & _).
      simpl. rewrite Hfut. set_solver.
    + unfold _persist_run, bind, load_run. by rewrite Hrun, Hskip.
    + unfold _persist_run, bind, load_run. by rewrite Hrun, Hskip.
  - unfold _persist_run, bind, load_run. by rewrite Hrun.
Qed.

(** Workers and submissions never take a future out of the registry. *)
Lemma run_schedule_futures self schedule w :
  Forall (λ ev, is_Remove ev = false) schedule →
  futures w ⊆ futures (run_schedule self schedule w).
Proof.
  intros Hall. revert w. induction Hall as [|ev schedule Hev Hall IH]; intros w.
  - done.
  - simpl. etrans; [|apply IH].
    destruct ev as [f|run|f]; simpl in *; [|apply persist_run_futures|done].
    by rewrite work_item_run_futures.
Qed.

(** *** [wait_for_futures] *)

Lemma wait_for_futures_unfold self schedule w w1 :
  wait self (elements (futures w)) schedule w = Some w1 →
  (∀ f, f ∈ futures w → f ∈ futures w1) →
  wait_for_futures self schedule w
  = Some (Return tt, set_futures (futures w1 ∖ futures w) w1).
Proof.
  intros Hw Hin. unfold wait_for_futures. rewrite Hw.
  rewrite remove_all_present.
  - by rewrite list_to_set_elements_L.
  - apply NoDup_elements.
  - intros f Hf. apply Hin. by apply elem_of_elements.
Qed.

Lemma wait_for_futures_returned self schedule w w' :
  wait_for_futures self schedule w = Some (Return tt, w') →
  ∃ w1, wait self (elements (futures w)) schedule w = Some w1
      ∧ w' = set_futures (futures w1 ∖ futures w) w1.
Proof.
  intros Hret. unfold wait_for_futures in Hret.
  destruct (wait self (elements (futures w)) schedule w) as [w1|] eqn:Hw; [|done].
  exists w1. split; [done|].
  assert (Hin : ∀ f, f ∈ futures w → f ∈ futures w1).
  { intros f Hf. destruct (decide (f ∈ futures w1)) as [|Hout]; [done|].
    apply elem_of_elements in Hf.
    destruct (remove_all_absent _ _ _ Hf Hout) as [w2 Hr]. congruence. }
  pose proof (wait_for_futures_unfold self schedule w w1 Hw Hin) as Heq.
  unfold wait_for_futures in Heq. rewrite Hw in Heq. congruence.
Qed.

(** C2.  When [wait_for_futures] returns, every future that was in the
    registry when it was called is done and is no longer in the registry.
    It returned at the first moment those futures were all done: the
    futures and the registry are as the other threads had left them then,
    less the snapshot, so what was submitted meanwhile is still registered
    and was not waited for.  And it does return, whenever the other threads
    get the snapshot done and no concurrent caller removes from the
    registry. *)
Theorem wait_for_futures_joins_snapshot self schedule w :
  (∀ w', wait_for_futures self schedule w = Some (Return tt, w') →
     (∀ f, f ∈ futures w → done w' f = true ∧ f ∉ futures w')
     ∧ ∃ k, (k ≤ length schedule)%nat
          ∧ tasks w' = tasks (run_schedule self (take k schedule) w)
          ∧ futures w' = futures (run_schedule self (take k schedule) w) ∖ futures w
          ∧ ∀ j, (j < k)%nat →
              forallb (done (run_schedule self (take j schedule) w))
                (elements (futures w)) = false)
  ∧ (Forall (λ ev, is_Remove ev = false) schedule →
     ∀ k, forallb (done (run_schedule self (take k schedule) w))
            (elements (futures w)) = true →
     ∃ w', wait_for_futures self schedule w = Some (Return tt, w')).
Proof.
  split.
  - intros w' Hret.
    destruct (wait_for_futures_returned _ _ _ _ Hret) as (w1 & Hw & ->).
    split.
    + intros f Hf. split; [|simpl; set_solver].
      pose proof (wait_done _ _ _ _ _ Hw) as Hd.
      rewrite forallb_forall in Hd.
      apply (Hd f). apply list_elem_of_In. by apply elem_of_elements.
    + destruct (wait_first _ _ _ _ _ Hw) as (k & Hk & -> & Hmin).
      exists k. split_and!; done.
  - intros Hall k Hk.
    destruct (wait_returns _ _ _ _ _ Hk) as [w1 Hw].
    eexists. apply (wait_for_futures_unfold _ _ _ w1 Hw).
    destruct (wait_first _ _ _ _ _ Hw) as (k' & _ & -> & _).
    intros f Hf. eapply run_schedule_futures; [|done]. by apply Forall_take.
Qed.

(** C3, amended.  The removal loop returns exactly when every future of
    the snapshot is still in the registry when the loop runs; a future
    that is no longer there makes [set.remove] raise [KeyError].  So the
    method returns normally whenever only workers and submissions run
    beside it, however often it is called, and raises when a concurrent
    caller has already removed a future of its snapshot. *)
Theorem remove_all_returns_iff_present self schedule w fs :
  (NoDup fs → fst (remove_all fs w) = Return tt ↔ ∀ f, f ∈ fs → f ∈ futures w)
  ∧ (∀ f, f ∈ fs → f ∉ futures w →
       fst (remove_all fs w) = Raise (Exn KeyError "<Future>"))
  ∧ (Forall (λ ev, is_Remove ev = false) schedule →
     ∀ o w', wait_for_futures self schedule w = Some (o, w') → o = Return tt).
Proof.
  split_and!.
  - intros Hnd. split.
    + intros Hret f Hf. destruct (decide (f ∈ futures w)) as [|Hout]; [done|].
      destruct (remove_all_absent _ _ _ Hf Hout) as [w2 Hr].
      rewrite Hr in Hret. done.
    + intros Hin. by rewrite remove_all_present.
  - intros f Hf Hout. destruct (remove_all_absent _ _ _ Hf Hout) as [w2 ->]. done.
  - intros Hall o w' Hret. unfold wait_for_futures in Hret.
    destruct (wait self (elements (futures w)) schedule w) as [w1|] eqn:Hw; [|done].
    destruct (wait_first _ _ _ _ _ Hw) as (k & _ & Hw1 & _).
    rewrite remove_all_present in Hret.
    + congruence.
    + apply NoDup_elements.
    + intros f Hf%elem_of_elements. rewrite Hw1.
      eapply run_schedule_futures; [|done]. by apply Forall_take.
Qed.

(** C8.  On an empty registry [wait_for_futures] returns at once, whatever
    the other threads are about to do: it raises nothing and the world,
    the empty registry included, is as it was. *)
Theorem wait_for_futures_empty self schedule w :
  futures w = ∅ → wait_for_futures self schedule w = Some (Return tt, w).
Proof.
  intros Hempty. unfold wait_for_futures. rewrite Hempty, elements_empty.
  destruct schedule; reflexivity.
Qed.

End Join.

Section Init.
Context `{!Externals}.

(** C9, amended.  Unless [example_id] is a malformed string, the
    constructor returns a handler whose pool is bounded by
    [max(max_workers or len(evaluators), 1)]: by [max_workers] when it is
    positive; by the number of evaluators, at least 1, when it is not given
    or is 0; and by 1 when it is negative. *)
Theorem init_max_workers (evaluators0 : list RunEvaluator) (max_workers : option Z)
    (client0 : option Client) (example_id0 : option (UUID + string))
    (skip_unfinished0 : bool) (project_name0 : option string) (w : world) :
  (∀ s, example_id0 = Some (inr s) → is_Some (UUID_of_str s)) →
  ∃ self,
    __init__ evaluators0 max_workers client0 example_id0 skip_unfinished0 project_name0 w
    = (Return self, set_futures ∅ w)
    ∧ (∀ n, max_workers = Some n → 0 < n → executor_max_workers self = n)
    ∧ (max_workers = None ∨ max_workers = Some 0 →
       executor_max_workers self = Z.max (Z.of_nat (length evaluators0)) 1)
    ∧ (∀ n, max_workers = Some n → n < 0 → executor_max_workers self = 1).
Proof.
  intros Hid.
  assert (Hret : ∃ eid,
            __init__ evaluators0 max_workers client0 example_id0 skip_unfinished0
              project_name0 w
            = (Return {| example_id := eid;
                         client := default LangChainPlusClient client0;
                         evaluators := evaluators0;
                         executor_max_workers :=
                           Z.max (int_or max_workers (Z.of_nat (length evaluators0))) 1;
                         skip_unfinished := skip_unfinished0;
                         project_name := project_name0 |},
               set_futures ∅ w)).
  { unfold __init__, bind. destruct example_id0 as [[u|s]|]; simpl; [by eexists| |by eexists].
    destruct (Hid s eq_refl) as [u ->]. by eexists. }
  destruct Hret as [eid Hret]. eexists. split; [exact Hret|]. simpl. split_and!.
  - intros n -> Hn. simpl. rewrite decide_False by lia. lia.
  - by intros [->| ->].
  - intros n -> Hn. simpl. rewrite decide_False by lia. lia.
Qed.

End Init.

Section Construction.
Context `{!Externals}.

Lemma init_returns (evaluators0 : list RunEvaluator) (max_workers : option Z)
    (client0 : option Client) (example_id0 : option (UUID + string))
    (skip_unfinished0 : bool) (project_name0 : option string) (w w' : world) self :
  __init__ evaluators0 max_workers client0 example_id0 skip_unfinished0 project_name0 w
  = (Return self, w') →
  self = {| example_id := parsed_example_id example_id0;
            client := default LangChainPlusClient client0;
            evaluators := evaluators0;
            executor_max_workers :=
              Z.max (int_or max_workers (Z.of_nat (length evaluators0))) 1;
            skip_unfinished := skip_unfinished0;
            project_name := project_name0 |}
  ∧ w' = set_futures ∅ w.
Proof.
  unfold __init__, bind.
  destruct example_id0 as [[u|s]|]; simpl.
  - intros [= <- <-]. done.
  - destruct (UUID_of_str s) as [u|]; simpl; [|done]. intros [= <- <-]. done.
  - intros [= <- <-]. done.
Qed.

(** The pool of a handler always has room for a worker: the bound is at
    least 1 whatever is passed; [max_workers=0] counts as not given, and a
    negative [max_workers] gives a pool of one. *)
Theorem init_pool_has_a_worker (evaluators0 : list RunEvaluator) (max_workers : option Z)
    (client0 : option Client) (example_id0 : option (UUID + string))
    (skip_unfinished0 : bool) (project_name0 : option string) (w w' : world) self :
  __init__ evaluators0 max_workers client0 example_id0 skip_unfinished0 project_name0 w
  = (Return self, w') →
  (1 ≤ executor_max_workers self)%Z
  ∧ (max_workers = Some 0 →
     executor_max_workers self = Z.max (Z.of_nat (length evaluators0)) 1)
  ∧ (∀ n, max_workers = Some n → (n < 0)%Z → executor_max_workers self = 1).
Proof.
  intros Hinit. apply init_returns in Hinit as [-> _]. simpl. split_and!.
  - lia.
  - by intros ->.
  - intros n -> Hn. simpl. rewrite decide_False by lia. lia.
Qed.

(** A handler built without a client gets an instance of the class of this
    file, which has no [evaluate_run]: every evaluation then fails on the
    attribute lookup, whatever the project name; the [AttributeError] is
    logged and raised again, and nothing else changes. *)
Theorem default_client_cannot_evaluate (evaluators0 : list RunEvaluator)
    (max_workers : option Z) (example_id0 : option (UUID + string))
    (skip_unfinished0 : bool) (project_name0 : option string) (w0 w0' : world) self
    (run : loc) (r : Run) (evaluator : RunEvaluator) (w : world) :
  __init__ evaluators0 max_workers None example_id0 skip_unfinished0 project_name0 w0
  = (Return self, w0') →
  runs (hp w) !! run = Some r →
  _evaluate_in_project self run evaluator w
  = (Raise no_evaluate_run,
     set_records (records w ++ [error_record r evaluator no_evaluate_run]) w).
Proof.
  intros Hinit Hrun. apply init_returns in Hinit as [-> _].
  rewrite evaluate_in_project_unfold.
  unfold evaluate_body, bind, tracing_v2_enabled, ret. simpl.
  destruct (decide (project_name0 = None)) as [Hd|Hd]; simpl.
  - by rewrite Hrun.
  - rewrite Hrun. by destruct w.
Qed.

End Construction.

Section Dispatch.
Context `{!Externals}.
Implicit Types (self : EvaluatorCallbackHandler) (run : loc) (r : Run) (w : world).

(** With no evaluator configured an eligible run is still copied, and that
    is all: nothing is submitted, the registry and the executor's futures
    are as they were. *)
Theorem persist_run_no_evaluators self run r w :
  runs (hp w) !! run = Some r →
  skip_unfinished self = false
  ∨ (∃ d kv, outputs r = Some d ∧ dicts (hp w) !! d = Some kv ∧ kv ≠ ∅) →
  evaluators self = [] →
  _persist_run self run w
  = (Return tt,
     set_runs (<[fresh (dom (runs (hp w))) :=
                   {| id := id r; outputs := outputs r;
                      reference_example_id := example_id self; rest := rest r |}]>
                 (runs (hp w))) w).
Proof.
  intros Hrun Hel Hnone. apply (skipped_eligible self r w) in Hel.
  unfold _persist_run. unfold bind at 1. unfold load_run at 1. rewrite Hrun.
  unfold bind at 1. rewrite Hel.
  unfold bind at 1. unfold Run_copy. unfold bind at 1. unfold load_run at 1.
  rewrite Hrun.
  unfold bind at 1. unfold set_reference_example_id.
  unfold bind at 1. unfold load_run at 1. simpl.
  rewrite lookup_insert_eq. simpl. rewrite insert_insert_eq.
  rewrite Hnone. reflexivity.
Qed.

(** The example id passed to the constructor, a [UUID] or a string that
    parses, is what every evaluator finds on the run it is handed: each
    future dispatched for an eligible run works on an object that carries
    it as [reference_example_id], with the id and the outputs of the run. *)
Theorem example_id_reaches_evaluators (evaluators0 : list RunEvaluator)
    (max_workers : option Z) (client0 : option Client) (example_id0 : option (UUID + string))
    (skip_unfinished0 : bool) (project_name0 : option string) (w0 w0' : world) self
    run r w :
  __init__ evaluators0 max_workers client0 example_id0 skip_unfinished0 project_name0 w0
  = (Return self, w0') →
  runs (hp w) !! run = Some r →
  skip_unfinished0 = false
  ∨ (∃ d kv, outputs r = Some d ∧ dicts (hp w) !! d = Some kv ∧ kv ≠ ∅) →
  ∃ fs w',
    _persist_run self run w = (Return tt, w')
    ∧ length fs = length evaluators0
    ∧ futures w' = list_to_set fs ∪ futures w
    ∧ ∀ f, f ∈ fs → ∃ t r_,
        tasks w' !! f = Some t
        ∧ runs (hp w') !! arg_run t = Some r_
        ∧ reference_example_id r_ = parsed_example_id example_id0
        ∧ id r_ = id r ∧ outputs r_ = outputs r.
Proof.
  intros Hinit Hrun Hel. apply init_returns in Hinit as [-> _].
  match goal with |- context [_persist_run ?h _ _] => set (self := h) end.
  assert (Hsk : skipped self r w = (Return false, w)) by by apply skipped_eligible.
  destruct (persist_run_eligible self run r w Hrun Hsk)
    as (fs & w' & Hp & Hruns & _ & Hlen & _ & _ & Hfut & Htask & _).
  exists fs, w'. split_and!; try done.
  intros f Hf. apply list_elem_of_lookup in Hf as [i Hi].
  destruct (Htask i f Hi) as (ev & _ & Ht).
  eexists _, _. split; [exact Ht|]. simpl. rewrite Hruns, lookup_insert_eq. done.
Qed.

End Dispatch.

Section Pool.
Context `{!Externals}.
Implicit Types (self : EvaluatorCallbackHandler) (run : loc) (w : world) (f : Future).

Lemma client_evaluate_run_sound (c : Client) run evaluator w :
  sound_client c →
  fst (client_evaluate_run c run evaluator w) ≠ Stuck
  ∧ dom (runs (hp w)) ⊆ dom (runs (hp (snd (client_evaluate_run c run evaluator w)))).
Proof.
  destruct c as [|evaluate_run]; simpl; intros Hs; [done|].
  specialize (Hs (tracing w) run evaluator (sink w) (hp w)).
  destruct (evaluate_run _ _ _ _ _) as [[o s] h]. simpl in *. done.
Qed.

Lemma evaluate_body_sound self run evaluator w :
  sound_client (client self) →
  fst (evaluate_body self run evaluator w) ≠ Stuck
  ∧ dom (runs (hp w)) ⊆ dom (runs (hp (snd (evaluate_body self run evaluator w)))).
Proof.
  intros Hs. unfold evaluate_body, bind, tracing_v2_enabled, ret.
  destruct (decide (project_name self = None)) as [Hd|Hd].
  - pose proof (client_evaluate_run_sound (client self) run evaluator w Hs) as [H1 H2].
    destruct (client_evaluate_run (client self) run evaluator w) as [[[]|e|] w1];
      simpl in *; try done.
    match goal with |- context [client_evaluate_run ?c ?r ?v ?x] =>
      pose proof (client_evaluate_run_sound c r v x Hs) as [H3 H4];
      destruct (client_evaluate_run c r v x) as [o2 w2] end.
    simpl in *. split; [done|]. set_solver.
  - match goal with |- context [client_evaluate_run ?c ?r ?v ?x] =>
      pose proof (client_evaluate_run_sound c r v x Hs) as [H3 H4];
      destruct (client_evaluate_run c r v x) as [o2 w2] end.
    simpl in *. done.
Qed.

Lemma evaluate_in_project_sound self run evaluator w :
  sound_client (client self) → run ∈ dom (runs (hp w)) →
  fst (_evaluate_in_project self run evaluator w) ≠ Stuck
  ∧ dom (runs (hp w)) ⊆ dom (runs (hp (snd (_evaluate_in_project self run evaluator w)))).
Proof.
  intros Hs Hrun. rewrite evaluate_in_project_unfold.
  pose proof (evaluate_body_sound self run evaluator w Hs) as [H1 H2].
  destruct (evaluate_body self run evaluator w) as [[[]|e|] w1]; simpl in *; try done.
  destruct (isinstance_Exception e); [|done].
  assert (Hin : run ∈ dom (runs (hp w1))) by set_solver.
  apply elem_of_dom in Hin as [r ->]. done.
Qed.

(** What a worker makes of a pending task. *)
Lemma work_item_run_pending self f (t : Task) w :
  sound_client (client self) →
  tasks w !! f = Some t → _state t = PENDING → arg_run t ∈ dom (runs (hp w)) →
  tasks (work_item_run self f w)
  = <[f := {| arg_run := arg_run t; arg_evaluator := arg_evaluator t;
              _state := FINISHED
                match fst (_evaluate_in_project self (arg_run t) (arg_evaluator t) w) with
                | Raise e => Some e
                | _ => None
                end |}]> (tasks w)
  ∧ futures (work_item_run self f w) = futures w
  ∧ dom (runs (hp w)) ⊆ dom (runs (hp (work_item_run self f w))).
Proof.
  intros Hs Ht Hp Hrun. unfold work_item_run. rewrite Ht, Hp.
  pose proof (evaluate_in_project_sound self _ (arg_evaluator t) w Hs Hrun) as [H1 H2].
  pose proof (evaluate_in_project_frame self (arg_run t) (arg_evaluator t) w)
    as (Hf & Hts & _).
  destruct (_evaluate_in_project self (arg_run t) (arg_evaluator t) w) as [[[]|e|] w1];
    simpl in *; try done; by rewrite Hts.
Qed.

(** A worker never forgets a future, nor turns a finished one back. *)
Lemma work_item_run_keeps self f w :
  dom (tasks (work_item_run self f w)) = dom (tasks w)
  ∧ ∀ g, done w g = true → done (work_item_run self f w) g = true.
Proof.
  unfold work_item_run. destruct (tasks w !! f) as [t|] eqn:Ht; [|done].
  destruct (_state t) eqn:Hp; [|done].
  pose proof (evaluate_in_project_frame self (arg_run t) (arg_evaluator t) w)
    as (_ & Hts & _).
  assert (Hdom : f ∈ dom (tasks w)) by (apply elem_of_dom; eauto).
  destruct (_evaluate_in_project self (arg_run t) (arg_evaluator t) w) as [[[]|e|] w1];
    simpl in *; [| |done].
  all: split; [rewrite dom_insert_L, Hts; set_solver|].
  all: intros g Hg; unfold done in *; simpl; rewrite Hts.
  all: destruct (decide (f = g)) as [<-|Hne];
    [by rewrite lookup_insert_eq|by rewrite lookup_insert_ne].
Qed.

(** Workers that take the futures of a list one by one get them all done,
    and leave done what was. *)
Lemma workers_finish self (fs : list Future) w :
  sound_client (client self) →
  (∀ f, f ∈ fs → ∃ t, tasks w !! f = Some t ∧ arg_run t ∈ dom (runs (hp w))) →
  ∀ f, f ∈ fs ∨ done w f = true →
       done (run_schedule self (Worker <$> fs) w) f = true.
Proof.
  intros Hs. revert w. induction fs as [|g fs IH]; intros w Hlive f Hf.
  - destruct Hf as [Hf|Hf]; [by apply elem_of_nil in Hf|done].
  - simpl. destruct (Hlive g) as (t & Ht & Hrun); [by left|].
    pose proof (work_item_run_keeps self g w) as [Hdom Hkeep].
    assert (Hg : done (work_item_run self g w) g = true
                 ∧ (∀ h t', tasks w !! h = Some t' →
                      ∃ t'', tasks (work_item_run self g w) !! h = Some t''
                           ∧ arg_run t'' = arg_run t')
                 ∧ dom (runs (hp w)) ⊆ dom (runs (hp (work_item_run self g w)))).
    { destruct (_state t) eqn:Hp.
      - destruct (work_item_run_pending self g t w Hs Ht Hp Hrun) as (Hts & _ & Hsub).
        split_and!; [|intros h t' Ht'|done].
        + unfold done. rewrite Hts, lookup_insert_eq. done.
        + rewrite Hts. destruct (decide (g = h)) as [<-|Hne].
          * rewrite lookup_insert_eq. eexists. split; [done|]. simpl. congruence.
          * rewrite lookup_insert_ne by done. eauto.
      - assert (Hid : work_item_run self g w = w).
        { unfold work_item_run. by rewrite Ht, Hp. }
        rewrite Hid. split_and!; [|eauto|done].
        unfold done. by rewrite Ht, Hp. }
    destruct Hg as (Hgdone & Htasks & Hsub).
    apply IH.
    + intros h Hh. destruct (Hlive h) as (t' & Ht' & Hrun'); [by right|].
      destruct (Htasks h t' Ht') as (t'' & Ht'' & Heq).
      exists t''. split; [done|]. rewrite Heq. set_solver.
    + destruct Hf as [Hf|Hf]; [|right; by apply Hkeep].
      apply elem_of_cons in Hf as [->|Hf]; [by right|by left].
Qed.

(** A worker that runs a pending task leaves its future finished, holding
    the exception [_evaluate_in_project] raised if it raised one, be it an
    [Exception] or not, and no exception otherwise; no other future is
    touched and the registry is as it was: an evaluator that fails does not
    disturb the tasks of the others. *)
Theorem worker_records_outcome self f (t : Task) w :
  sound_client (client self) →
  tasks w !! f = Some t → _state t = PENDING → arg_run t ∈ dom (runs (hp w)) →
  tasks (work_item_run self f w) !! f
  = Some {| arg_run := arg_run t; arg_evaluator := arg_evaluator t;
            _state := FINISHED
              match fst (_evaluate_in_project self (arg_run t) (arg_evaluator t) w) with
              | Raise e => Some e
              | _ => None
              end |}
  ∧ (∀ g, g ≠ f → tasks (work_item_run self f w) !! g = tasks w !! g)
  ∧ futures (work_item_run self f w) = futures w.
Proof.
  intros Hs Ht Hp Hrun.
  destruct (work_item_run_pending self f t w Hs Ht Hp Hrun) as (Hts & Hf & _).
  rewrite Hts. split_and!; [by rewrite lookup_insert_eq| |done].
  intros g Hne. by rewrite lookup_insert_ne.
Qed.

End Pool.

Section Lifecycle.
Context `{!Externals}.
Implicit Types (self : EvaluatorCallbackHandler) (run : loc) (w : world) (f : Future).
Implicit Types (fs : list Future) (schedule : list event).

(** The removal loop only takes futures out of the registry. *)
Lemma remove_all_frame fs w :
  futures (snd (remove_all fs w)) ⊆ futures w
  ∧ tasks (snd (remove_all fs w)) = tasks w.
Proof.
  revert w. induction fs as [|f fs IH]; intros w; [done|].
  unfold remove_all in *. simpl. unfold bind, futures_remove at 1 3.
  destruct (decide (f ∈ futures w)) as [Hf|Hf]; [|done].
  destruct (IH (set_futures (futures w ∖ {[f]}) w)) as [H1 H2].
  simpl in *. split; [set_solver|done].
Qed.

Lemma remove_all_app fs1 fs2 w :
  remove_all (fs1 ++ fs2) w = bind (remove_all fs1) (λ _, remove_all fs2) w.
Proof.
  revert w. induction fs1 as [|f fs1 IH]; intros w; [done|].
  unfold remove_all in *. simpl. unfold bind.
  destruct (futures_remove f w) as [[[]|e|] w1]; [|done|done].
  rewrite IH. reflexivity.
Qed.

Lemma persist_run_known self run w :
  futures w ⊆ dom (tasks w) →
  futures (snd (_persist_run self run w)) ⊆ dom (tasks (snd (_persist_run self run w))).
Proof.
  intros Hinv. destruct (runs (hp w) !! run) as [r|] eqn:Hrun.
  - pose proof (skipped_reads self r w) as Hsk.
    destruct (skipped self r w) as [[[|]|e|] w1] eqn:Hskip; simpl in Hsk; subst w1.
    + unfold _persist_run, bind, load_run. by rewrite Hrun, Hskip.
    + destruct (persist_run_eligible self run r w Hrun Hskip)
        as (fs & w' & -> & _ & _ & _ & _ & _ & Hfut & Htask & Hold & _).
      simpl. rewrite Hfut. intros f Hf. apply elem_of_dom.
      destruct (decide (f ∈ fs)) as [Hin|Hout].
      * apply list_elem_of_lookup in Hin as [i Hi].
        destruct (Htask i f Hi) as (ev & _ & ->). eauto.
      * rewrite Hold by done. apply elem_of_dom. set_solver.
    + unfold _persist_run, bind, load_run. by rewrite Hrun, Hskip.
    + unfold _persist_run, bind, load_run. by rewrite Hrun, Hskip.
  - unfold _persist_run, bind, load_run. by rewrite Hrun.
Qed.

Lemma run_schedule_known self schedule w :
  futures w ⊆ dom (tasks w) →
  futures (run_schedule self schedule w) ⊆ dom (tasks (run_schedule self schedule w)).
Proof.
  revert w. induction schedule as [|ev schedule IH]; intros w Hinv; [done|].
  simpl. apply IH. destruct ev as [f|run|f]; simpl.
  - rewrite work_item_run_futures.
    by destruct (work_item_run_keeps self f w) as [-> _].
  - by apply persist_run_known.
  - unfold futures_remove. destruct (decide (f ∈ futures w)); simpl; set_solver.
Qed.

(** Without submissions the registry can only shrink. *)
Lemma run_schedule_no_persist self schedule w :
  Forall (λ ev, is_Persist ev = false) schedule →
  futures (run_schedule self schedule w) ⊆ futures w.
Proof.
  intros Hall. revert w. induction Hall as [|ev schedule Hev Hall IH]; intros w; [done|].
  simpl. etrans; [apply IH|].
  destruct ev as [f|run|f]; simpl in *; [|done|].
  - by rewrite work_item_run_futures.
  - unfold futures_remove. destruct (decide (f ∈ futures w)); simpl; set_solver.
Qed.

(** The registry only ever holds futures of the handler's own executor:
    the constructor, [_persist_run], the workers and the other callers, and
    [wait_for_futures], however it ends, all keep it so. *)
Theorem registry_holds_executor_futures self w :
  futures w ⊆ dom (tasks w) →
  (∀ run, futures (snd (_persist_run self run w))
          ⊆ dom (tasks (snd (_persist_run self run w))))
  ∧ (∀ schedule, futures (run_schedule self schedule w)
                 ⊆ dom (tasks (run_schedule self schedule w)))
  ∧ (∀ schedule o w', wait_for_futures self schedule w = Some (o, w') →
       futures w' ⊆ dom (tasks w'))
  ∧ (∀ evaluators0 max_workers client0 example_id0 skip_unfinished0 project_name0 self' w',
       __init__ evaluators0 max_workers client0 example_id0 skip_unfinished0 project_name0 w
       = (Return self', w') →
       futures w' ⊆ dom (tasks w')).
Proof.
  intros Hinv. split_and!.
  - intros run. by apply persist_run_known.
  - intros schedule. by apply run_schedule_known.
  - intros schedule o w' Hret. unfold wait_for_futures in Hret.
    destruct (wait self (elements (futures w)) schedule w) as [w1|] eqn:Hw; [|done].
    destruct (wait_first _ _ _ _ _ Hw) as (k & _ & Hw1 & _).
    pose proof (run_schedule_known self (take k schedule) w Hinv) as Hinv1.
    rewrite <- Hw1 in Hinv1.
    destruct (remove_all_frame (elements (futures w)) w1) as [H1 H2].
    injection Hret as Hret. rewrite Hret in H1, H2. simpl in *.
    rewrite H2. set_solver.
  - intros evaluators0 max_workers client0 example_id0 skip_unfinished0 project_name0
      self' w' Hinit.
    apply init_returns in Hinit as [_ ->]. simpl. set_solver.
Qed.

(** When the removal loop meets a future that is no longer registered it
    raises [KeyError] there and then: the futures before it in the snapshot
    have been removed, the ones after it are left in the registry. *)
Theorem remove_all_stops_at_absent (pre post : list Future) f w :
  NoDup pre → (∀ g, g ∈ pre → g ∈ futures w) → f ∉ futures w →
  remove_all (pre ++ f :: post) w
  = (Raise (Exn KeyError "<Future>"), set_futures (futures w ∖ list_to_set pre) w).
Proof.
  intros Hnd Hpre Hf. rewrite remove_all_app. unfold bind.
  rewrite remove_all_present by done.
  unfold remove_all. simpl. unfold bind, futures_remove at 1.
  rewrite decide_False; [done|]. simpl. set_solver.
Qed.

(** A call of [wait_for_futures] that returns while nothing is submitted
    leaves the registry empty, and calling it again then returns at once
    and changes nothing. *)
Theorem wait_for_futures_twice self schedule schedule' w w' :
  Forall (λ ev, is_Persist ev = false) schedule →
  wait_for_futures self schedule w = Some (Return tt, w') →
  futures w' = ∅
  ∧ wait_for_futures self schedule' w' = Some (Return tt, w').
Proof.
  intros Hall Hret.
  destruct (wait_for_futures_returned _ _ _ _ Hret) as (w1 & Hw & ->).
  destruct (wait_first _ _ _ _ _ Hw) as (k & _ & Hw1 & _).
  assert (Hempty : futures w1 ∖ futures w = ∅).
  { assert (Hsub : futures w1 ⊆ futures w).
    { rewrite Hw1. by apply run_schedule_no_persist, Forall_take. }
    set_solver. }
  split; [done|].
  unfold wait_for_futures. simpl. rewrite Hempty, elements_empty.
  destruct schedule'; reflexivity.
Qed.

(** A worker leaves every work item with the run and the evaluator it was
    queued with. *)
Lemma work_item_run_args self f w (g : Future) (t : Task) :
  tasks w !! g = Some t →
  ∃ t', tasks (work_item_run self f w) !! g = Some t'
      ∧ arg_run t' = arg_run t ∧ arg_evaluator t' = arg_evaluator t.
Proof.
  intros Hg. unfold work_item_run.
  destruct (tasks w !! f) as [tf|] eqn:Hf; [|eauto].
  destruct (_state tf); [|eauto].
  pose proof (evaluate_in_project_frame self (arg_run tf) (arg_evaluator tf) w)
    as (_ & Hts & _).
  destruct (_evaluate_in_project self (arg_run tf) (arg_evaluator tf) w) as [[[]|e|] w1];
    simpl in *; [| |eauto].
  all: rewrite Hts; destruct (decide (f = g)) as [<-|Hne];
    [rewrite lookup_insert_eq; eexists; split; [done|]; simpl; split; congruence
    |rewrite lookup_insert_ne by done; eauto].
Qed.

Lemma work_item_run_heap self f w :
  sound_client (client self) →
  dom (runs (hp w)) ⊆ dom (runs (hp (work_item_run self f w))).
Proof.
  intros Hs. unfold work_item_run.
  destruct (tasks w !! f) as [t|]; [|done]. destruct (_state t); [|done].
  assert (Hheap : dom (runs (hp w))
            ⊆ dom (runs (hp (snd (_evaluate_in_project self (arg_run t)
                                     (arg_evaluator t) w))))).
  { rewrite evaluate_in_project_unfold.
    pose proof (evaluate_body_sound self (arg_run t) (arg_evaluator t) w Hs) as [_ H2].
    destruct (evaluate_body self (arg_run t) (arg_evaluator t) w) as [[[]|e|] w1];
      simpl in *; try done.
    destruct (isinstance_Exception e); [|done].
    destruct (runs (hp w1) !! arg_run t); done. }
  destruct (_evaluate_in_project self (arg_run t) (arg_evaluator t) w) as [[[]|e|] w1];
    simpl in *; done.
Qed.

(** While only workers move, the registry stays as it is, no object
    disappears and every work item keeps its run and its evaluator. *)
Lemma workers_keep self schedule w :
  sound_client (client self) →
  Forall (λ ev, is_Worker ev = true) schedule →
  futures (run_schedule self schedule w) = futures w
  ∧ dom (runs (hp w)) ⊆ dom (runs (hp (run_schedule self schedule w)))
  ∧ ∀ (g : Future) (t : Task), tasks w !! g = Some t →
      ∃ t', tasks (run_schedule self schedule w) !! g = Some t'
          ∧ arg_run t' = arg_run t ∧ arg_evaluator t' = arg_evaluator t.
Proof.
  intros Hs Hall. revert w. induction Hall as [|ev schedule Hev Hall IH]; intros w.
  - split_and!; [done|done|eauto].
  - destruct ev as [f|run|f]; simpl in Hev; try done. simpl.
    destruct (IH (work_item_run self f w)) as (Hfut & Hheap & Htasks).
    split_and!.
    + by rewrite Hfut, work_item_run_futures.
    + etrans; [by apply work_item_run_heap|done].
    + intros g t Hg.
      destruct (work_item_run_args self f w g t Hg) as (t1 & Ht1 & Hr1 & He1).
      destruct (Htasks g t1 Ht1) as (t2 & Ht2 & Hr2 & He2).
      exists t2. split_and!; congruence.
Qed.

(** Two runs persisted one after the other, with the workers doing what
    they will in between, do not get in each other's way: each gets its own
    copy and its own futures, one per evaluator, all distinct and all in
    the registry; the futures of the first dispatch, run or not by then,
    still belong to the first copy and to their evaluators, and those of
    the second are queued on the second copy. *)
Theorem persist_run_twice self run1 run2 (r1 r2 : Run) schedule w :
  sound_client (client self) →
  Forall (λ ev, is_Worker ev = true) schedule →
  runs (hp w) !! run1 = Some r1 →
  skip_unfinished self = false
  ∨ (∃ d kv, outputs r1 = Some d ∧ dicts (hp w) !! d = Some kv ∧ kv ≠ ∅) →
  runs (hp (run_schedule self schedule (snd (_persist_run self run1 w)))) !! run2
  = Some r2 →
  skip_unfinished self = false
  ∨ (∃ d kv, outputs r2 = Some d
       ∧ dicts (hp (run_schedule self schedule (snd (_persist_run self run1 w)))) !! d
         = Some kv
       ∧ kv ≠ ∅) →
  ∃ fs1 fs2 copy1 copy2 w1 w2,
    _persist_run self run1 w = (Return tt, w1)
    ∧ _persist_run self run2 (run_schedule self schedule w1) = (Return tt, w2)
    ∧ length fs1 = length (evaluators self)
    ∧ length fs2 = length (evaluators self)
    ∧ NoDup (fs1 ++ fs2)
    ∧ futures w2 = list_to_set (fs1 ++ fs2) ∪ futures w
    ∧ size (futures w2) = (size (futures w) + 2 * length (evaluators self))%nat
    ∧ copy1 ≠ copy2
    ∧ (∀ i f, fs1 !! i = Some f → ∃ evaluator t,
         evaluators self !! i = Some evaluator
         ∧ tasks w2 !! f = Some t
         ∧ arg_run t = copy1 ∧ arg_evaluator t = evaluator)
    ∧ (∀ i f, fs2 !! i = Some f → ∃ evaluator,
         evaluators self !! i = Some evaluator
         ∧ tasks w2 !! f
           = Some {| arg_run := copy2; arg_evaluator := evaluator; _state := PENDING |}).
Proof.
  intros Hs Hworkers Hrun1 Hel1 Hrun2 Hel2.
  apply (skipped_eligible self r1 w) in Hel1.
  destruct (persist_run_eligible self run1 r1 w Hrun1 Hel1)
    as (fs1 & w1 & Hp1 & Hruns1 & _ & Hlen1 & Hnd1 & Hnew1 & Hfut1 & Htask1 & _).
  rewrite Hp1 in Hrun2, Hel2. simpl in Hrun2, Hel2.
  destruct (workers_keep self schedule w1 Hs Hworkers) as (Hfut & Hheap & Htasks).
  set (w1' := run_schedule self schedule w1) in *.
  apply (skipped_eligible self r2 w1') in Hel2.
  destruct (persist_run_eligible self run2 r2 w1' Hrun2 Hel2)
    as (fs2 & w2 & Hp2 & _ & _ & Hlen2 & Hnd2 & Hnew2 & Hfut2 & Htask2 & Hold2 & _).
  assert (Hdisj : ∀ f, f ∈ fs1 → f ∉ fs2).
  { intros f Hf1 Hf2. apply Hnew2 in Hf2 as [Hf2 _]. apply Hf2.
    rewrite Hfut, Hfut1. set_solver. }
  exists fs1, fs2, (fresh (dom (runs (hp w)))), (fresh (dom (runs (hp w1')))), w1, w2.
  split_and!; try done.
  - apply NoDup_app. split_and!; done.
  - rewrite Hfut2, Hfut, Hfut1. set_solver.
  - assert (Hd1 : (list_to_set fs1 : gset Future) ## futures w).
    { intros f Hf1 Hf2. apply elem_of_list_to_set in Hf1. by apply Hnew1 in Hf1 as [? _]. }
    assert (Hd2 : (list_to_set fs2 : gset Future) ## list_to_set fs1 ∪ futures w).
    { intros f Hf1 Hf2. apply elem_of_list_to_set in Hf1.
      apply Hnew2 in Hf1 as [Hf1 _]. apply Hf1. by rewrite Hfut, Hfut1. }
    rewrite Hfut2, Hfut, Hfut1.
    rewrite (size_union _ _ Hd2), (size_union _ _ Hd1).
    rewrite !size_list_to_set by done. lia.
  - intros Heq.
    pose proof (is_fresh (dom (runs (hp w1')))) as Hfr. rewrite <- Heq in Hfr.
    apply Hfr, Hheap. rewrite Hruns1, dom_insert_L. set_solver.
  - intros i f Hf. destruct (Htask1 i f Hf) as (ev & Hev & Ht).
    destruct (Htasks f _ Ht) as (t' & Ht' & Hr & He). simpl in Hr, He.
    exists ev, t'. split_and!; try done.
    rewrite Hold2; [done|]. apply Hdisj. apply list_elem_of_lookup. eauto.
Qed.

(** Submit, then join: when the futures already registered are done and the
    workers take the new futures one by one, [wait_for_futures] returns
    with every one of them finished and the registry empty. *)
Theorem persist_then_join self run (r : Run) w :
  sound_client (client self) →
  runs (hp w) !! run = Some r →
  skip_unfinished self = false
  ∨ (∃ d kv, outputs r = Some d ∧ dicts (hp w) !! d = Some kv ∧ kv ≠ ∅) →
  (∀ f, f ∈ futures w → done w f = true) →
  ∃ fs w1 w2,
    _persist_run self run w = (Return tt, w1)
    ∧ length fs = length (evaluators self)
    ∧ futures w1 = list_to_set fs ∪ futures w
    ∧ wait_for_futures self (Worker <$> fs) w1 = Some (Return tt, w2)
    ∧ futures w2 = ∅
    ∧ (∀ f, f ∈ fs → done w2 f = true).
Proof.
  intros Hs Hrun Hel Hold. apply (skipped_eligible self r w) in Hel.
  destruct (persist_run_eligible self run r w Hrun Hel)
    as (fs & w1 & Hp & Hruns & _ & Hlen & Hnd & Hnew & Hfut & Htask & Hsame & _).
  exists fs, w1.
  assert (Hlive : ∀ f, f ∈ fs →
            ∃ t, tasks w1 !! f = Some t ∧ arg_run t ∈ dom (runs (hp w1))).
  { intros f Hf. apply list_elem_of_lookup in Hf as [i Hi].
    destruct (Htask i f Hi) as (ev & _ & Ht). eexists. split; [exact Ht|].
    simpl. rewrite Hruns, dom_insert_L. set_solver. }
  assert (Hall : forallb (done (run_schedule self (take (length fs) (Worker <$> fs)) w1))
                   (elements (futures w1)) = true).
  { rewrite firstn_all2 by (rewrite length_fmap; lia).
    apply forallb_forall. intros f Hf.
    apply list_elem_of_In, elem_of_elements in Hf. rewrite Hfut in Hf.
    apply (workers_finish self fs w1 Hs Hlive).
    destruct (decide (f ∈ fs)) as [Hin|Hout]; [by left|right].
    assert (Hf' : f ∈ futures w) by set_solver.
    specialize (Hold f Hf'). unfold done in *. by rewrite Hsame. }
  destruct (wait_returns _ _ _ _ _ Hall) as [w1' Hw].
  destruct (wait_first _ _ _ _ _ Hw) as (k & _ & Hw1' & _).
  assert (Hworkers : Forall (λ ev, is_Remove ev = false ∧ is_Persist ev = false)
                       (Worker <$> fs)).
  { apply Forall_fmap, Forall_forall. done. }
  assert (Hup : futures w1 ⊆ futures w1').
  { rewrite Hw1'. apply run_schedule_futures, Forall_take.
    eapply Forall_impl; [exact Hworkers|]. by intros ev [? _]. }
  assert (Hdown : futures w1' ⊆ futures w1).
  { rewrite Hw1'. apply run_schedule_no_persist, Forall_take.
    eapply Forall_impl; [exact Hworkers|]. by intros ev [_ ?]. }
  exists (set_futures (futures w1' ∖ futures w1) w1').
  split_and!; try done.
  - apply wait_for_futures_unfold; [done|]. intros f Hf. by apply Hup.
  - simpl. set_solver.
  - intros f Hf. pose proof (wait_done _ _ _ _ _ Hw) as Hd.
    rewrite forallb_forall in Hd. apply (Hd f).
    apply list_elem_of_In, elem_of_elements. rewrite Hfut. set_solver.
Qed.

End Lifecycle.

Section Blocking.
Context `{!Externals}.

(** [wait_for_futures] has no timeout: it stays suspended exactly as long
    as some future of its snapshot is not done, whatever else happens; it
    gets past [wait] as soon as, and only if, the others get them all
    done. *)
Theorem wait_for_futures_blocks_until_done (self : EvaluatorCallbackHandler)
    (schedule : list event) (w : world) :
  wait_for_futures self schedule w = None
  ↔ ∀ k, forallb (done (run_schedule self (take k schedule) w))
           (elements (futures w)) = false.
Proof.
  unfold wait_for_futures. split.
  - intros Hnone k.
    destruct (forallb (done (run_schedule self (take k schedule) w))
                (elements (futures w))) eqn:Hk; [|done].
    destruct (wait_returns _ _ _ _ _ Hk) as [w1 Hw]. by rewrite Hw in Hnone.
  - intros Hnever.
    destruct (wait self (elements (futures w)) schedule w) as [w1|] eqn:Hw; [|done].
    pose proof (wait_done _ _ _ _ _ Hw) as Hd.
    destruct (wait_first _ _ _ _ _ Hw) as (k & _ & Hw1 & _).
    rewrite Hw1, Hnever in Hd. done.
Qed.

End Blocking.

(** * The handler at work *)

Import Demo.

Lemma evaluate_in_project_calls_witness :
  calls (snd (_evaluate_in_project (handler posting (Some "evals")) 1%positive relevance w0))
  = [scoped_call (handler posting (Some "evals")) 1%positive relevance]
  ∧ calls (snd (_evaluate_in_project (handler posting None) 1%positive relevance w0))
    = [direct_call 1%positive relevance w0;
       scoped_call (handler posting None) 1%positive relevance]
  ∧ calls (snd (_evaluate_in_project (handler (failing bad_score) None) 1%positive toxicity w0))
    = [direct_call 1%positive toxicity w0].
Proof.
  split; [|split].
  - apply (evaluate_in_project_calls (handler posting (Some "evals")) 1%positive relevance w0
             _ eq_refl). simpl. discriminate.
  - apply (evaluate_in_project_calls (handler posting None) 1%positive relevance w0
             _ eq_refl); reflexivity.
  - apply (evaluate_in_project_calls (handler (failing bad_score) None) 1%positive toxicity w0
             _ eq_refl); [reflexivity|]. simpl. discriminate.
Defined.

(** With a project name configured, evaluate runs once. *)
Lemma override_evaluates_once :
  project_name (handler posting (Some "evals")) = Some "evals"
  ∧ fst (_evaluate_in_project (handler posting (Some "evals")) 1%positive relevance w0)
    = Return tt
  ∧ length (calls (snd (_evaluate_in_project (handler posting (Some "evals")) 1%positive
                          relevance w0))) = 1%nat.
Proof. split_and!; reflexivity. Qed.

Lemma evaluate_in_project_failure_witness :
  _evaluate_in_project (handler (failing bad_score) (Some "evals")) 1%positive toxicity w0
  = (Raise bad_score,
     set_records (records w0 ++ [error_record finished_run toxicity bad_score])
       (snd (evaluate_body (handler (failing bad_score) (Some "evals")) 1%positive
               toxicity w0)))
  ∧ _evaluate_in_project (handler posting (Some "evals")) 1%positive toxicity w0
    = (Return tt, snd (evaluate_body (handler posting (Some "evals")) 1%positive toxicity w0)).
Proof.
  split.
  - destruct (evaluate_in_project_failure
                (handler (failing bad_score) (Some "evals")) 1%positive toxicity w0 _ _ eq_refl)
      as (_ & _ & Hraise & _).
    apply (Hraise bad_score finished_run); reflexivity.
  - destruct (evaluate_in_project_failure
                (handler posting (Some "evals")) 1%positive toxicity w0 _ _ eq_refl)
      as (_ & Hret & _).
    apply Hret. reflexivity.
Defined.

(** The record logged for a failing evaluator. *)
Example error_record_message :
  message (error_record finished_run toxicity bad_score)
  = "Error evaluating run 41 with ToxicityEvaluator: bad score".
Proof. reflexivity. Qed.

(** An evaluator that exits the interpreter: the exception leaves
    [_evaluate_in_project] and no error is logged. *)
Lemma system_exit_not_logged :
  fst (_evaluate_in_project (handler (failing exit) (Some "evals")) 1%positive toxicity w0)
  = Raise exit
  ∧ records (snd (_evaluate_in_project (handler (failing exit) (Some "evals")) 1%positive
                    toxicity w0)) = [].
Proof. split; reflexivity. Qed.

Lemma persist_run_one_task_per_evaluator_witness :
  ∃ fs w',
    _persist_run (handler posting None) 1%positive w0 = (Return tt, w')
    ∧ length fs = length (evaluators (handler posting None))
    ∧ NoDup fs
    ∧ (∀ f, f ∈ fs → f ∉ futures w0)
    ∧ futures w' = list_to_set fs ∪ futures w0
    ∧ size (futures w') = (size (futures w0) + length (evaluators (handler posting None)))%nat
    ∧ (∀ i f, fs !! i = Some f → ∃ run_ evaluator,
         evaluators (handler posting None) !! i = Some evaluator
         ∧ tasks w' !! f
           = Some {| arg_run := run_; arg_evaluator := evaluator; _state := PENDING |})
    ∧ calls w' = calls w0 ∧ sink w' = sink w0.
Proof.
  apply (persist_run_one_task_per_evaluator (handler posting None) 1%positive finished_run w0).
  - reflexivity.
  - right. exists 1%positive, {[ "output" := "42" ]}.
    split; [reflexivity|]. split; [reflexivity|]. compute_done.
Defined.

(** Two evaluators: the registry gains two futures, both pending, on one
    copy of the run. *)
Example persist_run_two_evaluators :
  elements (futures submitted) = [2%positive; 1%positive]
  ∧ tasks submitted !! 1%positive
    = Some {| arg_run := 3%positive; arg_evaluator := relevance; _state := PENDING |}
  ∧ tasks submitted !! 2%positive
    = Some {| arg_run := 3%positive; arg_evaluator := toxicity; _state := PENDING |}
  ∧ calls submitted = [].
Proof. split_and!; reflexivity. Qed.

Lemma persist_run_skips_unfinished_witness :
  _persist_run (handler posting None) 2%positive w0
  = (Return tt,
     set_records (records w0 ++
       [{| levelname := DEBUG; message := "Skipping unfinished run " +:+ str_of_UUID 42%N;
           exc_info := None |}]) w0)
  ∧ futures (snd (_persist_run (handler posting None) 2%positive w0)) = futures w0
  ∧ tasks (snd (_persist_run (handler posting None) 2%positive w0)) = tasks w0.
Proof.
  apply (persist_run_skips_unfinished (handler posting None) 2%positive unfinished_run w0).
  - reflexivity.
  - reflexivity.
  - left. reflexivity.
Defined.

Lemma persist_run_preserves_original_witness :
  runs (hp (snd (_persist_run (handler posting None) 1%positive w0))) !! 1%positive
  = Some finished_run
  ∧ ∃ r, runs (hp w0) !! 1%positive = Some r
       ∧ {| id := 41%N; outputs := Some 1%positive; reference_example_id := Some 7%N;
            rest := "llm" |}
         = {| id := id r; outputs := outputs r;
              reference_example_id := example_id (handler posting None); rest := rest r |}.
Proof.
  destruct (persist_run_preserves_original (handler posting None) 1%positive w0)
    as (Hold & _ & Hnew).
  split.
  - apply Hold. reflexivity.
  - apply (Hnew 3%positive); reflexivity.
Defined.

Lemma persist_run_shares_one_copy_witness :
  ∃ run_ fs w',
    _persist_run (handler stamping None) 1%positive w0 = (Return tt, w')
    ∧ runs (hp w0) !! run_ = None
    ∧ dom (runs (hp w')) = {[run_]} ∪ dom (runs (hp w0))
    ∧ length fs = length (evaluators (handler stamping None))
    ∧ futures w' ∖ futures w0 = list_to_set fs
    ∧ (∀ f, f ∈ fs → ∃ t, tasks w' !! f = Some t ∧ arg_run t = run_)
    ∧ (∀ f1 f2 t1 t2 (h : heap), f1 ∈ fs → f2 ∈ fs →
         tasks w' !! f1 = Some t1 → tasks w' !! f2 = Some t2 →
         runs h !! arg_run t1 = runs h !! arg_run t2).
Proof.
  apply (persist_run_shares_one_copy (handler stamping None) 1%positive finished_run w0).
  - reflexivity.
  - right. exists 1%positive, {[ "output" := "42" ]}.
    split; [reflexivity|]. split; [reflexivity|]. compute_done.
Defined.

(** The second evaluator finds on the run what the first has written
    there: the sink holds what each call of [evaluate_run] read. *)
Example shared_copy_mutation_visible :
  sink (run_schedule (handler stamping (Some "evals")) [Worker 1%positive; Worker 2%positive]
          (snd (_persist_run (handler stamping (Some "evals")) 1%positive w0)))
  = ["llm"; "RelevanceEvaluator"]
  ∧ rest <$> runs (hp (snd (_persist_run (handler stamping (Some "evals")) 1%positive w0)))
               !! 1%positive = Some "llm".
Proof. split; reflexivity. Qed.

Lemma wait_for_futures_joins_snapshot_witness :
  ((∀ f, f ∈ futures submitted → done joined f = true ∧ f ∉ futures joined)
   ∧ ∃ k, (k ≤ length meanwhile)%nat
        ∧ tasks joined = tasks (run_schedule (handler posting None) (take k meanwhile) submitted)
        ∧ futures joined
          = futures (run_schedule (handler posting None) (take k meanwhile) submitted)
            ∖ futures submitted
        ∧ ∀ j, (j < k)%nat →
            forallb (done (run_schedule (handler posting None) (take j meanwhile) submitted))
              (elements (futures submitted)) = false)
  ∧ ∃ w', wait_for_futures (handler posting None) meanwhile submitted = Some (Return tt, w').
Proof.
  destruct (wait_for_futures_joins_snapshot (handler posting None) meanwhile submitted)
    as [Hjoin Hret].
  split.
  - apply Hjoin. vm_compute. reflexivity.
  - apply (Hret ltac:(repeat constructor) 3%nat). vm_compute. reflexivity.
Defined.

(** The futures submitted while the caller waited are still registered, and
    the one no worker has run yet is still pending. *)
Example later_submissions_not_waited_for :
  elements (futures submitted) = [2%positive; 1%positive]
  ∧ elements (futures joined) = [3%positive; 4%positive]
  ∧ done joined 3%positive = false
  ∧ done joined 4%positive = false.
Proof. split_and!; reflexivity. Qed.

Lemma remove_all_returns_iff_present_witness :
  fst (remove_all [1%positive; 2%positive] submitted) = Return tt
  ∧ fst (remove_all [1%positive] w0) = Raise (Exn KeyError "<Future>")
  ∧ ∀ o w', wait_for_futures (handler posting None) meanwhile submitted = Some (o, w') →
      o = Return tt.
Proof.
  destruct (remove_all_returns_iff_present (handler posting None) meanwhile submitted
              [1%positive; 2%positive]) as (Hiff & _ & Hsafe).
  destruct (remove_all_returns_iff_present (handler posting None) meanwhile w0
              [1%positive]) as (_ & Habsent & _).
  split_and!.
  - apply Hiff.
    + compute_done.
    + intros f Hf. apply list_elem_of_In in Hf. simpl in Hf.
      destruct Hf as [<-|[<-|[]]]; compute_done.
  - apply (Habsent 1%positive); compute_done.
  - apply Hsafe. repeat constructor.
Defined.

(** A snapshot [[1]] against an empty registry: the loop raises. *)
Lemma remove_absent_raises :
  futures w0 = ∅
  ∧ remove_all [1%positive] w0 = (Raise (Exn KeyError "<Future>"), w0).
Proof. split; reflexivity. Qed.

(** Two callers with the same snapshot: the one that resumes second finds
    the first future gone and raises, after it has removed the other. *)
Example concurrent_callers_raise :
  (fst <$> wait_for_futures (handler posting None) raced submitted)
  = Some (Raise (Exn KeyError "<Future>")).
Proof. reflexivity. Qed.

Lemma wait_for_futures_empty_witness :
  wait_for_futures (handler posting None) meanwhile w0 = Some (Return tt, w0).
Proof. apply wait_for_futures_empty. reflexivity. Defined.

Lemma init_max_workers_witness :
  (∃ self,
     __init__ [relevance; toxicity] (Some 4) None
       (Some (inr "123e4567-e89b-12d3-a456-426614174000")) true None w0
     = (Return self, set_futures ∅ w0)
     ∧ executor_max_workers self = 4)
  ∧ (∃ self,
       __init__ [relevance; toxicity] (Some 0) None None true None w0
       = (Return self, set_futures ∅ w0)
       ∧ executor_max_workers self = Z.max (Z.of_nat 2) 1)
  ∧ (∃ self,
       __init__ [relevance; toxicity] (Some (-3)) None None true None w0
       = (Return self, set_futures ∅ w0)
       ∧ executor_max_workers self = 1).
Proof.
  split_and!.
  - destruct (init_max_workers [relevance; toxicity] (Some 4) None
                (Some (inr "123e4567-e89b-12d3-a456-426614174000")) true None w0)
      as (self & Hinit & Hpos & _).
    + intros s [= <-]. vm_compute. eauto.
    + exists self. split; [exact Hinit|]. apply (Hpos 4); [reflexivity|lia].
  - destruct (init_max_workers [relevance; toxicity] (Some 0) None None true None w0)
      as (self & Hinit & _ & Hzero & _).
    + intros s. discriminate.
    + exists self. split; [exact Hinit|]. apply Hzero. by right.
  - destruct (init_max_workers [relevance; toxicity] (Some (-3)) None None true None w0)
      as (self & Hinit & _ & _ & Hneg).
    + intros s. discriminate.
    + exists self. split; [exact Hinit|]. apply (Hneg (-3)); [reflexivity|lia].
Defined.

(** A negative [max_workers] with two evaluators: the pool has one worker,
    not as many as there are evaluators. *)
Lemma negative_max_workers_bound :
  match fst (__init__ [relevance; toxicity] (Some (-3)) None None true None w0) with
  | Return self =>
      executor_max_workers self = 1
      ∧ executor_max_workers self ≠ Z.max (Z.of_nat (length [relevance; toxicity])) 1
  | _ => False
  end.
Proof. simpl. split; [reflexivity|discriminate]. Qed.

(** The bound of the pool for some constructions. *)
Example max_workers_cases :
  Z.max (int_or (Some 4) 2) 1 = 4
  ∧ Z.max (int_or None 2) 1 = 2
  ∧ Z.max (int_or None 0) 1 = 1
  ∧ Z.max (int_or (Some 0) 3) 1 = 3.
Proof. split_and!; reflexivity. Qed.

(** ** Construction, dispatch and join *)

Lemma init_pool_has_a_worker_witness :
  ∃ self w',
    __init__ [relevance; toxicity] (Some (-3)) None None true None w0 = (Return self, w')
    ∧ (1 ≤ executor_max_workers self)%Z
    ∧ (Some (-3) = Some 0 → executor_max_workers self = Z.max (Z.of_nat 2) 1)
    ∧ (∀ n, Some (-3) = Some n → (n < 0)%Z → executor_max_workers self = 1).
Proof.
  eexists _, _. split; [reflexivity|].
  apply (init_pool_has_a_worker [relevance; toxicity] (Some (-3)) None None true None
           w0 _ _ eq_refl).
Defined.

Lemma default_client_cannot_evaluate_witness :
  _evaluate_in_project bare 1%positive relevance w0
  = (Raise no_evaluate_run,
     set_records (records w0 ++ [error_record finished_run relevance no_evaluate_run]) w0).
Proof.
  apply (default_client_cannot_evaluate [relevance] None None true (Some "evals")
           w0 (set_futures ∅ w0) bare); reflexivity.
Defined.

Lemma persist_run_no_evaluators_witness :
  _persist_run idle 2%positive w0
  = (Return tt,
     set_runs (<[fresh (dom (runs (hp w0))) :=
                   {| id := id unfinished_run; outputs := outputs unfinished_run;
                      reference_example_id := example_id idle;
                      rest := rest unfinished_run |}]>
                 (runs (hp w0))) w0).
Proof.
  apply (persist_run_no_evaluators idle 2%positive unfinished_run w0).
  - reflexivity.
  - left. reflexivity.
  - reflexivity.
Defined.

Lemma persist_run_twice_witness :
  ∃ fs1 fs2 copy1 copy2 w1 w2,
    _persist_run (handler posting None) 1%positive w0 = (Return tt, w1)
    ∧ _persist_run (handler posting None) 1%positive
        (run_schedule (handler posting None) [Worker 1%positive] w1) = (Return tt, w2)
    ∧ length fs1 = length (evaluators (handler posting None))
    ∧ length fs2 = length (evaluators (handler posting None))
    ∧ NoDup (fs1 ++ fs2)
    ∧ futures w2 = list_to_set (fs1 ++ fs2) ∪ futures w0
    ∧ size (futures w2)
      = (size (futures w0) + 2 * length (evaluators (handler posting None)))%nat
    ∧ copy1 ≠ copy2
    ∧ (∀ i f, fs1 !! i = Some f → ∃ evaluator t,
         evaluators (handler posting None) !! i = Some evaluator
         ∧ tasks w2 !! f = Some t
         ∧ arg_run t = copy1 ∧ arg_evaluator t = evaluator)
    ∧ (∀ i f, fs2 !! i = Some f → ∃ evaluator,
         evaluators (handler posting None) !! i = Some evaluator
         ∧ tasks w2 !! f
           = Some {| arg_run := copy2; arg_evaluator := evaluator; _state := PENDING |}).
Proof.
  apply (persist_run_twice (handler posting None) 1%positive 1%positive
           finished_run finished_run [Worker 1%positive] w0).
  - intros t run ev s h. simpl. split; done.
  - repeat constructor.
  - reflexivity.
  - right. exists 1%positive, {[ "output" := "42" ]}.
    split; [reflexivity|]. split; [reflexivity|]. compute_done.
  - vm_compute. reflexivity.
  - right. exists 1%positive, {[ "output" := "42" ]}.
    split; [reflexivity|]. split; [vm_compute; reflexivity|]. compute_done.
Defined.

(** A worker has run the first future before the run is persisted again:
    that future is finished, the three others are pending. *)
Example persist_run_twice_between :
  _state <$> tasks (snd (_persist_run (handler posting None) 1%positive
                           (run_schedule (handler posting None) [Worker 1%positive]
                              submitted)))
  = {[ 1%positive := FINISHED None; 2%positive := PENDING;
       3%positive := PENDING; 4%positive := PENDING ]}.
Proof. vm_compute. reflexivity. Qed.

(** The same run persisted twice: four futures, two on each copy. *)
Example persist_run_twice_registry :
  elements (futures (snd (_persist_run (handler posting None) 1%positive submitted)))
  = [3%positive; 4%positive; 2%positive; 1%positive]
  ∧ (arg_run <$> tasks (snd (_persist_run (handler posting None) 1%positive submitted)))
    = {[ 1%positive := 3%positive; 2%positive := 3%positive;
         3%positive := 4%positive; 4%positive := 4%positive ]}.
Proof. split; vm_compute; reflexivity. Qed.

Lemma example_id_reaches_evaluators_witness :
  ∃ fs w',
    _persist_run
      {| example_id := Some 36%N; client := posting; evaluators := [relevance; toxicity];
         executor_max_workers := 2; skip_unfinished := true; project_name := None |}
      1%positive w0 = (Return tt, w')
    ∧ length fs = length [relevance; toxicity]
    ∧ futures w' = list_to_set fs ∪ futures w0
    ∧ ∀ f, f ∈ fs → ∃ t r_,
        tasks w' !! f = Some t
        ∧ runs (hp w') !! arg_run t = Some r_
        ∧ reference_example_id r_
          = parsed_example_id (Some (inr "123e4567-e89b-12d3-a456-426614174000"))
        ∧ id r_ = id finished_run ∧ outputs r_ = outputs finished_run.
Proof.
  apply (example_id_reaches_evaluators [relevance; toxicity] None (Some posting)
           (Some (inr "123e4567-e89b-12d3-a456-426614174000")) true None
           w0 (set_futures ∅ w0)).
  - reflexivity.
  - reflexivity.
  - right. exists 1%positive, {[ "output" := "42" ]}.
    split; [reflexivity|]. split; [reflexivity|]. compute_done.
Defined.

Lemma worker_records_outcome_witness :
  tasks (work_item_run (handler (failing exit) (Some "evals")) 2%positive submitted)
    !! 2%positive
  = Some {| arg_run := 3%positive; arg_evaluator := toxicity;
            _state := FINISHED
              match fst (_evaluate_in_project (handler (failing exit) (Some "evals"))
                           3%positive toxicity submitted) with
              | Raise e => Some e
              | _ => None
              end |}
  ∧ (∀ g, g ≠ 2%positive →
       tasks (work_item_run (handler (failing exit) (Some "evals")) 2%positive submitted) !! g
       = tasks submitted !! g)
  ∧ futures (work_item_run (handler (failing exit) (Some "evals")) 2%positive submitted)
    = futures submitted.
Proof.
  apply (worker_records_outcome (handler (failing exit) (Some "evals")) 2%positive
           {| arg_run := 3%positive; arg_evaluator := toxicity; _state := PENDING |}
           submitted).
  - intros t run ev s h. simpl. destruct (decide _); simpl; split; done.
  - reflexivity.
  - reflexivity.
  - compute_done.
Defined.

(** The evaluator that exits fails its own future and no other. *)
Example failing_task_is_isolated :
  _state <$> tasks (run_schedule (handler (failing exit) (Some "evals")) quiet submitted)
  = {[ 1%positive := FINISHED None; 2%positive := FINISHED (Some exit) ]}.
Proof. vm_compute. reflexivity. Qed.

Lemma registry_holds_executor_futures_witness :
  futures (snd (_persist_run (handler posting None) 1%positive submitted))
  ⊆ dom (tasks (snd (_persist_run (handler posting None) 1%positive submitted)))
  ∧ futures (run_schedule (handler posting None) raced submitted)
    ⊆ dom (tasks (run_schedule (handler posting None) raced submitted)).
Proof.
  destruct (registry_holds_executor_futures (handler posting None) submitted)
    as (Hpersist & Hsched & _).
  - compute_done.
  - split; [apply Hpersist|apply Hsched].
Defined.

Lemma remove_all_stops_at_absent_witness :
  remove_all [2%positive; 7%positive; 1%positive] submitted
  = (Raise (Exn KeyError "<Future>"),
     set_futures (futures submitted ∖ list_to_set [2%positive]) submitted).
Proof.
  apply (remove_all_stops_at_absent [2%positive] [1%positive] 7%positive submitted).
  - compute_done.
  - intros g Hg. apply list_elem_of_In in Hg. simpl in Hg.
    destruct Hg as [<-|[]]. compute_done.
  - compute_done.
Defined.

(** After the failure the other future of the snapshot is still registered. *)
Example remove_all_leaves_the_rest :
  elements (futures (snd (remove_all [2%positive; 7%positive; 1%positive] submitted)))
  = [1%positive].
Proof. reflexivity. Qed.

Lemma wait_for_futures_twice_witness :
  futures settled = ∅
  ∧ wait_for_futures (handler posting None) meanwhile settled = Some (Return tt, settled).
Proof.
  apply (wait_for_futures_twice (handler posting None) quiet meanwhile submitted settled).
  - repeat constructor.
  - vm_compute. reflexivity.
Defined.

Lemma persist_then_join_witness :
  ∃ fs w1 w2,
    _persist_run (handler (failing bad_score) (Some "evals")) 1%positive w0 = (Return tt, w1)
    ∧ length fs = length (evaluators (handler (failing bad_score) (Some "evals")))
    ∧ futures w1 = list_to_set fs ∪ futures w0
    ∧ wait_for_futures (handler (failing bad_score) (Some "evals")) (Worker <$> fs) w1
      = Some (Return tt, w2)
    ∧ futures w2 = ∅
    ∧ (∀ f, f ∈ fs → done w2 f = true).
Proof.
  apply (persist_then_join (handler (failing bad_score) (Some "evals")) 1%positive
           finished_run w0).
  - intros t run ev s h. simpl. destruct (decide _); simpl; split; done.
  - reflexivity.
  - right. exists 1%positive, {[ "output" := "42" ]}.
    split; [reflexivity|]. split; [reflexivity|]. compute_done.
  - intros f Hf. by apply not_elem_of_empty in Hf.
Defined.

(** Two evaluators, one finished run: after the join the registry is empty,
    one evaluation has posted its feedback and the failure of the other has
    been logged. *)
Example submit_and_join :
  (λ w, (elements (futures w), sink w, message <$> records w)) <$>
    (snd <$> wait_for_futures (handler (failing bad_score) (Some "evals")) quiet
               (snd (_persist_run (handler (failing bad_score) (Some "evals"))
                       1%positive w0)))
  = Some ([], ["RelevanceEvaluator"],
          ["Error evaluating run 41 with ToxicityEvaluator: bad score"]).
Proof. vm_compute. reflexivity. Qed.

Lemma wait_for_futures_blocks_until_done_witness :
  wait_for_futures (handler posting None) [Worker 1%positive; Persist 1%positive] submitted
  = None.
Proof.
  apply (wait_for_futures_blocks_until_done (handler posting None)
           [Worker 1%positive; Persist 1%positive] submitted).
  intros [|[|[|k]]]; vm_compute; reflexivity.
Defined.
